(** * picresizeinkb: the cropper and the size-targeting compressor

    A shallow embedding of [src/utils/imageProcessor.ts] and the properties
    its specification states about it.

    The two procedures, [getCroppedImg] and [compressImageToTarget], run
    against a browser: they allocate a canvas, draw on it and ask it for an
    encoding.  The browser is a parameter here (class [Host]); the canvas and
    the list of encodings requested are the state the procedures thread.

    JavaScript numbers are the other parameter (class [Number]).  Two
    instances are given: exact rationals, the arithmetic the specification
    reasons in, and IEEE 754 binary64, the arithmetic the engine computes
    in.  A property is stated for both wherever it holds by the structure of
    the code or by evaluating the search.

    Around the two procedures, the development follows their callers: the
    handlers of [src/App.tsx] that resize, keep the history and show it, and
    [formatFileSizeDual] of [src/utils/fileHelpers.ts], which writes the
    sizes. *)

From Stdlib Require Import ZArith QArith Qabs Qround Qreduction Bool List Sorted Lia Lqa String.
From Stdlib Require Import Permutation Ascii DecimalString DecimalPos.
From Stdlib Require Import Floats.
Import ListNotations.

Set Warnings "-inexact-float".

(** ** JavaScript numbers *)

(** What the source needs of its numbers: the four operations, the two
    comparisons it branches on, integers read as numbers, and the exact value
    of a number ([None] for NaN and the infinities), from which [Math.floor],
    [Math.round] and the conversion to an integer attribute are read. *)
Class Number : Type := {
  num : Type;
  of_Z : Z -> num;
  add : num -> num -> num;
  sub : num -> num -> num;
  mul : num -> num -> num;
  div : num -> num -> num;
  leb : num -> num -> bool;
  ltb : num -> num -> bool;
  value : num -> option Q
}.

Declare Scope num_scope.
Delimit Scope num_scope with num.
Bind Scope num_scope with num.
Infix "+" := add : num_scope.
Infix "-" := sub : num_scope.
Infix "*" := mul : num_scope.
Infix "/" := div : num_scope.
Infix "<=?" := leb : num_scope.
Infix "<?" := ltb : num_scope.

(** A decimal literal of the source, [n/d] with [d] a power of ten: [0.05] is
    [dec 5 100].  In binary64 the quotient of two small integers is rounded
    once, to the double nearest to [n/d], which is the double the literal
    denotes (see [binary64_literals]). *)
Definition dec {N : Number} (n : Z) (d : positive) : num :=
  (of_Z n / of_Z (Zpos d))%num.

(** [Math.floor], on finite numbers. *)
Definition floor {N : Number} (x : num) : Z :=
  match value x with Some q => Qfloor q | None => 0 end.

(** [Math.round]: the nearest integer, a half going up. *)
Definition round {N : Number} (x : num) : Z :=
  match value x with Some q => Qfloor (q + (1 # 2)) | None => 0 end.

(** Truncation toward zero, the first step of the conversion of a number to
    an integer attribute; NaN and the infinities become [0]. *)
Definition trunc {N : Number} (x : num) : Z :=
  match value x with Some q => Z.quot (Qnum q) (Zpos (Qden q)) | None => 0 end.

(** *** Exact rationals *)

(** Results are kept in lowest terms, so that equal numbers are equal terms. *)
#[global] Instance Exact_Number : Number := {|
  num := Q;
  of_Z := inject_Z;
  add := fun x y => Qred (Qplus x y);
  sub := fun x y => Qred (Qminus x y);
  mul := fun x y => Qred (Qmult x y);
  div := fun x y => Qred (Qdiv x y);
  leb := Qle_bool;
  ltb := fun x y => negb (Qle_bool y x);
  value := Some
|}.

(** *** IEEE 754 binary64 *)

(** The exact value of a finite double [(-1)^s * m * 2^e]. *)
Definition SF2Q (f : spec_float) : option Q :=
  match f with
  | S754_zero _ => Some 0%Q
  | S754_finite s m e =>
      let z := if s then Zneg m else Zpos m in
      Some (match e with
            | Z0 => inject_Z z
            | Zpos p => inject_Z (z * 2 ^ Zpos p)
            | Zneg p => Qmake z (2 ^ p)
            end)
  | S754_infinity _ | S754_nan => None
  end.

(** An integer as a double, rounded to nearest, ties to even. *)
Definition Z2float (z : Z) : float :=
  SF2Prim (binary_normalize prec emax z 0 false).

#[global] Instance Binary64_Number : Number := {|
  num := float;
  of_Z := Z2float;
  add := PrimFloat.add;
  sub := PrimFloat.sub;
  mul := PrimFloat.mul;
  div := PrimFloat.div;
  leb := PrimFloat.leb;
  ltb := PrimFloat.ltb;
  value := fun f => SF2Q (Prim2SF f)
|}.

(** The two arithmetics the properties are stated in. *)
Inductive arithmetic : Set := Exact | Binary64.

Definition number_of (a : arithmetic) : Number :=
  match a with Exact => Exact_Number | Binary64 => Binary64_Number end.

(** ** The browser *)

(** What a canvas has been asked to draw since it was last reset.  The
    coordinates are the numbers the source passes. *)
Inductive Draw (num Image : Type) : Type :=
| DrawImage5 (image : Image) (dx dy dw dh : num)
| DrawImage9 (image : Image) (sx sy sw sh dx dy dw dh : num)
| ClearRect (x y w h : num).
Arguments DrawImage5 {num Image}.
Arguments DrawImage9 {num Image}.
Arguments ClearRect {num Image}.

(** An [HTMLCanvasElement]: its two integer attributes and its bitmap, kept as
    the drawing operations that produced it. *)
Record Canvas (num Image : Type) : Type := mkCanvas {
  canvas_width : Z;
  canvas_height : Z;
  drawn : list (Draw num Image)
}.
Arguments mkCanvas {num Image}.
Arguments canvas_width {num Image}.
Arguments canvas_height {num Image}.
Arguments drawn {num Image}.

(** The capabilities of the page the code runs in.  [decode] is the loading
    of an image from a blob ([None]: the [onerror] event); [context2d] tells
    whether [getContext('2d')] yields a context; [toBlob] is the encoder, a
    function of the canvas, the MIME type and the quality, [None] when the
    callback receives [null]. *)
Class Host {N : Number} : Type := {
  Blob : Type;
  size : Blob -> Z;
  Image : Type;
  naturalWidth : Image -> Z;
  naturalHeight : Image -> Z;
  image_width : Image -> Z;
  image_height : Image -> Z;
  decode : Blob -> option Image;
  context2d : bool;
  toBlob : Canvas num Image -> string -> num -> option Blob
}.

(** What a call can be rejected with. *)
Inductive exn : Set :=
| Error (message : string)   (* [new Error(message)] *)
| TypeError                  (* a property read on [null] *)
| LoadError.                 (* the [onerror] event of the image *)

Inductive completion (A : Type) : Type :=
| Returned (a : A)
| Thrown (e : exn).
Arguments Returned {A}.
Arguments Thrown {A}.

Section Processor.
Context {N : Number} {H : Host}.

(** One request to the encoder: the canvas as it was, the type, the quality. *)
Record Encoding : Type := mkEncoding {
  enc_canvas : Canvas num Image;
  enc_type : string;
  enc_quality : num
}.

(** The state a call threads: its canvas, and the encodings it has requested
    so far, oldest first. *)
Record World : Type := mkWorld {
  canvas : Canvas num Image;
  encodings : list Encoding
}.

Definition M (A : Type) : Type := World -> completion A * World.

Definition ret {A} (a : A) : M A := fun w => (Returned a, w).
Definition throw {A} (e : exn) : M A := fun w => (Thrown e, w).
Definition bind {A B} (m : M A) (k : A -> M B) : M B :=
  fun w => match m w with
           | (Returned a, w') => k a w'
           | (Thrown e, w') => (Thrown e, w')
           end.

End Processor.

Declare Scope js_scope.
Delimit Scope js_scope with js.
Notation "x <- m ;; k" := (bind m (fun x => k))
  (at level 61, m at next level, right associativity) : js_scope.
Notation "m ;; k" := (bind m (fun _ => k))
  (at level 61, right associativity) : js_scope.
Open Scope js_scope.

Section Processor.
Context {N : Number} {H : Host}.
Local Open Scope num_scope.

(** Assigning to a reflected [unsigned long] attribute: the value is taken
    modulo 2^32, and one above 2^31 - 1 gives the attribute's default. *)
Definition reflect_unsigned_long (default v : Z) : Z :=
  let u := (v mod 2 ^ 32)%Z in
  if (2147483647 <? u)%Z then default else u.

(** [document.createElement('canvas')]: 300 by 150, blank. *)
Definition createCanvas : M unit :=
  fun w => (Returned tt, mkWorld (mkCanvas 300 150 []) (encodings w)).

(** Assigning either dimension resets the bitmap. *)
Definition set_canvas_width (v : Z) : M unit :=
  fun w => (Returned tt,
            mkWorld (mkCanvas (reflect_unsigned_long 300 v)
                              (canvas_height (canvas w)) [])
                    (encodings w)).

Definition set_canvas_height (v : Z) : M unit :=
  fun w => (Returned tt,
            mkWorld (mkCanvas (canvas_width (canvas w))
                              (reflect_unsigned_long 150 v) [])
                    (encodings w)).

Definition get_canvas : M (Canvas num Image) :=
  fun w => (Returned (canvas w), w).

Definition draw (d : Draw num Image) : M unit :=
  fun w => (Returned tt,
            mkWorld (mkCanvas (canvas_width (canvas w)) (canvas_height (canvas w))
                              (drawn (canvas w) ++ [d]))
                    (encodings w)).

(** [canvas.toBlob(callback, type, quality)], awaited: the request is
    recorded and the host's answer handed to the callback. *)
Definition canvas_toBlob (type : string) (quality : num) : M (option Blob) :=
  fun w => (Returned (toBlob (canvas w) type quality),
            mkWorld (canvas w)
                    (encodings w ++ [mkEncoding (canvas w) type quality])).

(** [blob.size], where [blob] may be [null] at run time. *)
Definition blob_size (blob : option Blob) : M Z :=
  match blob with
  | Some b => ret (size b)
  | None => throw TypeError
  end.

(** A call starts with no canvas of its own yet and nothing encoded. *)
Definition start : World := mkWorld (mkCanvas 0 0 []) [].

(** ** [getCroppedImg] *)

Record PixelCrop : Type := mkPixelCrop {
  crop_x : num;
  crop_y : num;
  crop_width : num;
  crop_height : num
}.

Definition getCroppedImg (image : Image) (crop : PixelCrop)
    (type : option string) : M Blob :=
  let type := match type with Some t => t | None => "image/jpeg"%string end in
  createCanvas ;;
  let scaleX := (of_Z (naturalWidth image) / of_Z (image_width image))%num in
  let scaleY := (of_Z (naturalHeight image) / of_Z (image_height image))%num in
  set_canvas_width (trunc (crop_width crop * scaleX)) ;;
  set_canvas_height (trunc (crop_height crop * scaleY)) ;;
  if negb context2d then throw (Error "No 2d context") else
  c <- get_canvas ;;
  draw (DrawImage9 image
          (crop_x crop * scaleX) (crop_y crop * scaleY)
          (crop_width crop * scaleX) (crop_height crop * scaleY)
          (of_Z 0) (of_Z 0)
          (of_Z (canvas_width c)) (of_Z (canvas_height c))) ;;
  blob <- canvas_toBlob type (of_Z 1) ;;
  match blob with
  | None => throw (Error "Canvas is empty")
  | Some b => ret b
  end.

(** ** [compressImageToTarget] *)

Record CompressionResult : Type := mkResult {
  blob : option Blob;
  width : Z;
  height : Z
}.

(** [fileToImage] of [fileHelpers.ts], as far as the canvas and the
    encodings of a call go: the image the file loads as, or the load error.
    The object URL it makes for the file, to load the image from, is an
    effect on the page: [compressImageToTarget_on_page] counts it. *)
Definition fileToImage (file : Blob) : M Image :=
  match decode file with
  | Some img => ret img
  | None => throw LoadError
  end.

(** The helper [getBlob]: JPEG is forced, and the callback's argument is
    passed on as it comes, [null] included. *)
Definition getBlob (q : num) : M (option Blob) :=
  canvas_toBlob "image/jpeg" q.

(** The variables of the first pass. *)
Record Search : Type := mkSearch {
  minQ : num;
  maxQ : num;
  bestBlob : option Blob;
  iterations : nat
}.

(** The first pass, [while (minQ <= maxQ && iterations < 10)].  [fuel] bounds
    the unfolding; [first_pass_fuel] shows that 10 is never exhausted. *)
Fixpoint first_pass (fuel : nat) (targetSizeBytes : num) (s : Search)
    : M Search :=
  match fuel with
  | O => ret s
  | S fuel =>
      if (minQ s <=? maxQ s)%num && (iterations s <? 10)%nat then
        let midQ := ((minQ s + maxQ s) / of_Z 2)%num in
        blob <- getBlob midQ ;;
        sz <- blob_size blob ;;
        first_pass fuel targetSizeBytes
          (if (of_Z sz <=? targetSizeBytes)%num
           then mkSearch (midQ + dec 5 100)%num (maxQ s) blob
                         (S (iterations s))
           else mkSearch (minQ s) (midQ - dec 5 100)%num (bestBlob s)
                         (S (iterations s)))
      else ret s
  end.

(** The variables of the second pass: [width] and [height] are those of the
    enclosing function, which the pass assigns. *)
Record Scaling : Type := mkScaling {
  scale : num;
  iterations2 : nat;
  cur_width : Z;
  cur_height : Z
}.

(** The second pass, [while (iterations < 15)]: [inl] is the [return] inside
    the loop, [inr] the state the loop is left in, by [break] or by its
    condition. *)
Fixpoint second_pass (fuel : nat) (originalImage : Image)
    (targetSizeBytes : num) (s : Scaling)
    : M (CompressionResult + Scaling) :=
  match fuel with
  | O => ret (inr s)
  | S fuel =>
      if (iterations2 s <? 15)%nat then
        let width := floor (of_Z (image_width originalImage) * scale s)%num in
        let height := floor (of_Z (image_height originalImage) * scale s)%num in
        set_canvas_width width ;;
        set_canvas_height height ;;
        draw (ClearRect (of_Z 0) (of_Z 0) (of_Z width) (of_Z height)) ;;
        draw (DrawImage5 originalImage
                (of_Z 0) (of_Z 0) (of_Z width) (of_Z height)) ;;
        blob <- getBlob (dec 5 10) ;;
        sz <- blob_size blob ;;
        if (of_Z sz <=? targetSizeBytes)%num then
          ret (inl (mkResult blob width height))
        else
          let scale' := (scale s - dec 1 10)%num in
          if (scale' <? dec 1 10)%num then
            ret (inr (mkScaling scale' (iterations2 s) width height))
          else
            second_pass fuel originalImage targetSizeBytes
              (mkScaling scale' (S (iterations2 s)) width height)
      else ret (inr s)
  end.

Definition compressImageToTarget (file : Blob) (targetSizeKB : num)
    : M CompressionResult :=
  let targetSizeBytes := (targetSizeKB * of_Z 1024)%num in
  originalImage <- fileToImage file ;;
  createCanvas ;;
  if negb context2d then throw (Error "Could not get canvas context") else
  let width := image_width originalImage in
  let height := image_height originalImage in
  set_canvas_width width ;;
  set_canvas_height height ;;
  draw (DrawImage5 originalImage
          (of_Z 0) (of_Z 0) (of_Z width) (of_Z height)) ;;
  s <- first_pass 10 targetSizeBytes
         (mkSearch (dec 1 100) (of_Z 1) None 0) ;;
  match bestBlob s with
  | Some b => ret (mkResult (Some b) width height)
  | None =>
      r <- second_pass 15 originalImage targetSizeBytes
             (mkScaling (dec 9 10) 0 width height) ;;
      match r with
      | inl result => ret result
      | inr s2 =>
          finalBlob <- getBlob (dec 1 10) ;;
          ret (mkResult finalBlob (cur_width s2) (cur_height s2))
      end
  end.

End Processor.

(** ** Reading a call *)

Section Observations.
Context {N : Number} {H : Host}.
Local Open Scope num_scope.

(** The crop regions the specification calls valid for an image: inside the
    displayed image, with positive extent. *)
Definition valid_crop (image : Image) (crop : PixelCrop) : Prop :=
  (of_Z 0 <=? crop_x crop) = true /\
  (of_Z 0 <=? crop_y crop) = true /\
  (crop_x crop + crop_width crop <=? of_Z (image_width image)) = true /\
  (crop_y crop + crop_height crop <=? of_Z (image_height image)) = true /\
  (of_Z 0 <? crop_width crop) = true /\
  (of_Z 0 <? crop_height crop) = true.

(** The pixel dimensions of the artifact a crop returns: those of the canvas
    that was encoded. *)
Definition cropped_dimensions (image : Image) (crop : PixelCrop)
    (type : option string) : option (Z * Z) :=
  match getCroppedImg image crop type start with
  | (Returned _, w) =>
      Some (canvas_width (canvas w), canvas_height (canvas w))
  | (Thrown _, _) => None
  end.

(** The two factors that take the displayed region to natural pixels. *)
Definition scaleX (image : Image) : num :=
  of_Z (naturalWidth image) / of_Z (image_width image).
Definition scaleY (image : Image) : num :=
  of_Z (naturalHeight image) / of_Z (image_height image).

(** An extent a canvas attribute keeps the integer part of: a finite number,
    not negative, whose integer part is at most 2^31 - 1. *)
Definition storable (x : num) : Prop :=
  match value x with
  | Some v => (0 <= v)%Q /\ (Qfloor v <= 2147483647)%Z
  | None => False
  end.

(** The canvas of a crop once it has been sized and drawn on. *)
Definition cropped_canvas (image : Image) (crop : PixelCrop)
    : Canvas num Image :=
  let w := reflect_unsigned_long 300 (trunc (crop_width crop * scaleX image)) in
  let h := reflect_unsigned_long 150 (trunc (crop_height crop * scaleY image)) in
  mkCanvas w h
    [DrawImage9 image
       (crop_x crop * scaleX image) (crop_y crop * scaleY image)
       (crop_width crop * scaleX image) (crop_height crop * scaleY image)
       (of_Z 0) (of_Z 0) (of_Z w) (of_Z h)].

End Observations.

(** ** The shape of the two searches *)

(** Which quality the first pass tries next depends on the host only through
    whether each encoding fitted.  Its possible courses therefore form a
    binary tree, read off the loop: the guard, the midpoint, and the two ways
    the interval is narrowed. *)
Section Shape.
Context {N : Number}.
Local Open Scope num_scope.

Inductive tree : Type :=
| Stop
| Try (q : num) (fitted too_large : tree).

Fixpoint first_pass_tree (fuel : nat) (lo hi : num) (n : nat) : tree :=
  match fuel with
  | O => Stop
  | S fuel =>
      if (lo <=? hi) && (n <? 10)%nat then
        let midQ := (lo + hi) / of_Z 2 in
        Try midQ
          (first_pass_tree fuel (midQ + dec 5 100) hi (S n))
          (first_pass_tree fuel lo (midQ - dec 5 100) (S n))
      else Stop
  end.

(** The qualities of a tree, a node before its subtrees. *)
Fixpoint nodes (t : tree) : list num :=
  match t with
  | Stop => []
  | Try q f l => q :: nodes f ++ nodes l
  end.

(** Every quality below a fitted encoding is strictly above it. *)
Fixpoint ascending (t : tree) : bool :=
  match t with
  | Stop => true
  | Try q f l =>
      forallb (fun q' => q <? q') (nodes f) && ascending f && ascending l
  end.

(** The depth of a tree: the most encodings one course of the pass makes. *)
Fixpoint depth (t : tree) : nat :=
  match t with
  | Stop => O
  | Try _ f l => S (Nat.max (depth f) (depth l))
  end.

(** The second pass tries its scales in an order that no answer changes: an
    answer only decides whether the pass goes on.  These are the scales it
    tries as long as nothing fits, and the scale and the count it is left
    with when nothing did. *)
Fixpoint second_pass_scales (fuel : nat) (scale : num) (n : nat) : list num :=
  match fuel with
  | O => []
  | S fuel =>
      if (n <? 15)%nat then
        scale ::
        (let scale' := scale - dec 1 10 in
         if scale' <? dec 1 10 then []
         else second_pass_scales fuel scale' (S n))
      else []
  end.

Fixpoint second_pass_exit (fuel : nat) (scale : num) (n : nat) : num * nat :=
  match fuel with
  | O => (scale, n)
  | S fuel =>
      if (n <? 15)%nat then
        let scale' := scale - dec 1 10 in
        if scale' <? dec 1 10 then (scale', n)
        else second_pass_exit fuel scale' (S n)
      else (scale, n)
  end.

(** A quality the encoder accepts as the specification reads it. *)
Definition in_range (q : num) : bool :=
  (dec 1 100 <=? q) && (q <=? of_Z 1).

End Shape.

Section Canvases.
Context {N : Number} {H : Host}.
Local Open Scope num_scope.

(** The canvas of the first pass: the image at its own dimensions. *)
Definition full_canvas (image : Image) : Canvas num Image :=
  mkCanvas (reflect_unsigned_long 300 (image_width image))
           (reflect_unsigned_long 150 (image_height image))
           [DrawImage5 image (of_Z 0) (of_Z 0)
              (of_Z (image_width image)) (of_Z (image_height image))].

(** The dimensions the second pass assigns at a scale, and its canvas then. *)
Definition scaled_width (image : Image) (scale : num) : Z :=
  floor (of_Z (image_width image) * scale).
Definition scaled_height (image : Image) (scale : num) : Z :=
  floor (of_Z (image_height image) * scale).

Definition scaled_canvas (image : Image) (scale : num) : Canvas num Image :=
  let width := scaled_width image scale in
  let height := scaled_height image scale in
  mkCanvas (reflect_unsigned_long 300 width)
           (reflect_unsigned_long 150 height)
           [ClearRect (of_Z 0) (of_Z 0) (of_Z width) (of_Z height);
            DrawImage5 image (of_Z 0) (of_Z 0) (of_Z width) (of_Z height)].

(** The requests of the two passes. *)
Definition full_encoding (c : Canvas num Image) (q : num) : Encoding :=
  mkEncoding c "image/jpeg" q.
Definition scaled_encoding (image : Image) (scale : num) : Encoding :=
  mkEncoding (scaled_canvas image scale) "image/jpeg" (dec 5 10).

(** Whether an answer of the encoder is a blob within the budget, and whether
    it is a blob above it. *)
Definition fits (targetSizeBytes : num) (blob : option Blob) : bool :=
  match blob with
  | Some b => of_Z (size b) <=? targetSizeBytes
  | None => false
  end.
Definition too_large (targetSizeBytes : num) (blob : option Blob) : bool :=
  match blob with
  | Some b => negb (of_Z (size b) <=? targetSizeBytes)
  | None => false
  end.

(** The first pass, piece by piece: the state it starts in, its guard, its
    midpoint, the two states an iteration may lead to, and the world once a
    quality has been requested. *)
Definition initial_search : Search := mkSearch (dec 1 100) (of_Z 1) None 0.

Definition guard (s : Search) : bool :=
  (minQ s <=? maxQ s) && (iterations s <? 10)%nat.

Definition midQ (s : Search) : num := (minQ s + maxQ s) / of_Z 2.

Definition narrowed_up (s : Search) (blob : option Blob) : Search :=
  mkSearch (midQ s + dec 5 100) (maxQ s) blob (S (iterations s)).

Definition narrowed_down (s : Search) : Search :=
  mkSearch (minQ s) (midQ s - dec 5 100) (bestBlob s) (S (iterations s)).

Definition requested (w : World) (e : Encoding) : World :=
  mkWorld (canvas w) (encodings w ++ [e]).

(** The tree below a state of the first pass. *)
Definition tree_from (fuel : nat) (s : Search) : tree :=
  first_pass_tree fuel (minQ s) (maxQ s) (iterations s).

(** The second pass likewise: the state it starts in, and the state and the
    world of an iteration once its canvas is drawn. *)
Definition initial_scaling (image : Image) : Scaling :=
  mkScaling (dec 9 10) 0 (image_width image) (image_height image).

Definition rescaled (image : Image) (s : Scaling) (w : World) : World :=
  mkWorld (scaled_canvas image (scale s))
          (encodings w ++ [scaled_encoding image (scale s)]).

Definition next_scale (s : Scaling) : num := scale s - dec 1 10.

Definition stepped (image : Image) (s : Scaling) (n : nat) : Scaling :=
  mkScaling (next_scale s) n
            (scaled_width image (scale s)) (scaled_height image (scale s)).

(** The candidates the first pass records among the qualities it tried on a
    canvas: the tries whose encoding fitted, in the order they were made. *)
Definition recorded (c : Canvas num Image) (targetSizeBytes : num)
    (qs : list num) : list num :=
  filter (fun q => fits targetSizeBytes (toBlob c "image/jpeg" q)) qs.

End Canvases.

(** The scales the second pass goes through when nothing fits, as each
    arithmetic computes them: the subtraction of 0.1 is exact in the first and
    rounded in the second. *)
Definition scales (a : arithmetic) : list (@num (number_of a)) :=
  match a with
  | Exact =>
      [9 # 10; 4 # 5; 7 # 10; 3 # 5; 1 # 2; 2 # 5; 3 # 10; 1 # 5; 1 # 10]%Q
  | Binary64 =>
      [0.9; 0.8; 0.7000000000000001; 0.6000000000000001; 0.5000000000000001;
       0.40000000000000013; 0.30000000000000016; 0.20000000000000015;
       0.10000000000000014]%float
  end.

(** The last of them, the scale of the last attempt. *)
Definition last_scale (a : arithmetic) : @num (number_of a) :=
  match a with
  | Exact => (1 # 10)%Q
  | Binary64 => 0.10000000000000014%float
  end.

(** ** The first phase as the specification words it *)

(** Written from section 4.2 of the specification, not from the source, to
    be compared with [first_pass]: "Maintain a quality interval [minQ, maxQ]
    initialized to [0.01, 1.0].  Repeat up to 10 iterations while minQ <=
    maxQ: midQ = (minQ + maxQ) / 2; encode the full-resolution image at
    quality midQ; if encoded size <= targetBytes, record this artifact as the
    best-so-far candidate (overwriting any previous candidate), then narrow
    upward, minQ = midQ + 0.05; else narrow downward, maxQ = midQ - 0.05."
    The result is the qualities encoded at, in order, and the candidate. *)
Section Specification.
Context {N : Number} {Artifact : Type}.
Variable encode : num -> Artifact.
Variable sizeBytes : Artifact -> Z.
Variable targetBytes : num.
Local Open Scope num_scope.

Fixpoint spec_bisection (rounds : nat) (minQ maxQ : num)
    (candidate : option Artifact) : list num * option Artifact :=
  match rounds with
  | O => ([], candidate)
  | S rounds =>
      if minQ <=? maxQ then
        let midQ := (minQ + maxQ) / of_Z 2 in
        let artifact := encode midQ in
        let (encoded, found) :=
          if of_Z (sizeBytes artifact) <=? targetBytes
          then spec_bisection rounds (midQ + dec 5 100) maxQ (Some artifact)
          else spec_bisection rounds minQ (midQ - dec 5 100) candidate in
        (midQ :: encoded, found)
      else ([], candidate)
  end.

Definition spec_phase1 : list num * option Artifact :=
  spec_bisection 10 (dec 1 100) (of_Z 1) None.

End Specification.

(** ** A synthetic host *)

(** An image as far as the code reads it. *)
Record picture : Set := mkPicture {
  pic_naturalWidth : Z;
  pic_naturalHeight : Z;
  pic_width : Z;
  pic_height : Z
}.

(** A host for running the code on concrete inputs: a blob is its size, every
    file decodes to [pic], and the encoder is a function of the canvas
    dimensions and of the exact value of the quality. *)
Definition stub_host (a : arithmetic) (pic : picture) (ctx : bool)
    (encoder : Z -> Z -> Q -> option Z) : @Host (number_of a) :=
  @Build_Host (number_of a) Z (fun z => z) picture
    pic_naturalWidth pic_naturalHeight pic_width pic_height
    (fun _ => Some pic) ctx
    (fun c _ q =>
       match @value (number_of a) q with
       | Some v => encoder (canvas_width c) (canvas_height c) v
       | None => None
       end).

(** An encoder whose output grows with the area and with the quality. *)
Definition area_encoder (w h : Z) (q : Q) : option Z :=
  Some (Qfloor (inject_Z (w * h) * q)).

(** An encoder whose output is always a million bytes, and one that is so
    except at a quality of one tenth, where it yields nothing. *)
Definition heavy_encoder (w h : Z) (q : Q) : option Z := Some 1000000%Z.

Definition null_at_tenth_encoder (w h : Z) (q : Q) : option Z :=
  if Qle_bool (999 # 10000) q && Qle_bool q (1001 # 10000) then None
  else Some 1000000%Z.

(** One that yields nothing at a quality of one half, and one that never
    yields anything. *)
Definition null_at_half_encoder (w h : Z) (q : Q) : option Z :=
  if Qeq_bool q (1 # 2) then None else Some 1000000%Z.

Definition null_encoder (w h : Z) (q : Q) : option Z := None.

(** A 1000 by 800 image, displayed at its natural size. *)
Definition picture_1000_800 : picture := mkPicture 1000 800 1000 800.

(** A 5 by 5 image displayed 4 by 4, and the region of 3 by 3 displayed
    pixels at its origin. *)
Definition picture_5_on_4 : picture := mkPicture 5 5 4 4.

Definition crop_3 (a : arithmetic) : @PixelCrop (number_of a) :=
  @mkPixelCrop (number_of a)
    (@of_Z (number_of a) 0) (@of_Z (number_of a) 0)
    (@of_Z (number_of a) 3) (@of_Z (number_of a) 3).

(** An encoder that has nothing to encode on a canvas without pixels, as
    [toBlob] answers [null] there, and otherwise yields a thousand bytes and
    one more for each pixel; and an image of 9 by 30000. *)
Definition pixelless_encoder (w h : Z) (q : Q) : option Z :=
  if (w <=? 0)%Z || (h <=? 0)%Z then None else Some (1000 + w * h)%Z.

Definition picture_9_30000 : picture := mkPicture 9 30000 9 30000.

(** A 640 by 480 image displayed 303 by 227. *)
Definition picture_640_on_303 : picture := mkPicture 640 480 303 227.

(** The region that covers all of the image as displayed. *)
Definition whole_crop {N : Number} {H : Host} (image : Image) : PixelCrop :=
  mkPixelCrop (of_Z 0) (of_Z 0)
              (of_Z (image_width image)) (of_Z (image_height image)).

(** ** How the first pass ends *)

Section Exits.
Context {N : Number}.
Local Open Scope num_scope.

(** The interval and the count the first pass can be left with, read off the
    loop as [first_pass_tree] is: one state for each way through it. *)
Fixpoint first_pass_exits (fuel : nat) (lo hi : num) (n : nat)
    : list (num * num * nat) :=
  match fuel with
  | O => [(lo, hi, n)]
  | S fuel =>
      if (lo <=? hi) && (n <? 10)%nat then
        let midQ := (lo + hi) / of_Z 2 in
        first_pass_exits fuel (midQ + dec 5 100) hi (S n)
        ++ first_pass_exits fuel lo (midQ - dec 5 100) (S n)
      else [(lo, hi, n)]
  end.

(** An exit after exactly four iterations, on an empty interval. *)
Definition emptied_at_four (exit : num * num * nat) : bool :=
  let '(lo, hi, n) := exit in
  (n =? 4)%nat && negb (lo <=? hi).

(** The qualities strictly inside the interval the search starts from. *)
Definition well_inside (q : num) : bool :=
  (dec 28 1000 <=? q) && (q <=? dec 982 1000).

End Exits.

(** ** The answers to a record of requests *)

Section Verdicts.
Context {N : Number} {H : Host}.
Local Open Scope num_scope.

(** What the encoder answers to a request. *)
Definition answer (e : Encoding) : option Blob :=
  toBlob (enc_canvas e) (enc_type e) (enc_quality e).


Definition over_budget (targetSizeBytes : num) (e : Encoding) : Prop :=
  too_large targetSizeBytes (answer e) = true.

End Verdicts.

(** ** The application around the compressor *)

(** The handlers of [src/App.tsx] that crop, that deal with the result of a
    resize and with the history, over the part of the component's state they
    read or write.  A handler is a function from the state at the time of its call to
    the state once its updates are applied, no other event coming in between.
    The effects of the component (the clean-up of the URLs in use, the
    dismissal of the toast) are not part of a handler and are left out:
    [Browser] records what the handlers, and the procedures they call, ask
    of the page themselves.
    [src/types.ts] gives the records. *)

Inductive AppState : Set := IDLE | SELECTED | PROCESSING | COMPLETED.

Inductive ToastType : Set := toast_success | toast_error.

Record ToastMessage : Set := mkToast {
  toast_type : ToastType;
  toast_text : string
}.

Record HistoryItem : Set := mkHistoryItem {
  item_id : string;
  item_url : string;
  item_fileName : string;
  item_originalSize : Z;
  item_newSize : Z;
  item_timestamp : Z
}.

Inductive SortOrder : Set := newest | oldest.

(** What the page lends the component: the object URLs it hands out, one
    after the other; the successive readings of [Date.now()]; [parseInt] in
    base 10, [None] for [NaN]; and [String.prototype.toLowerCase]. *)
Class Page : Type := {
  objectURL : nat -> string;
  clock : nat -> Z;
  parseInt : string -> option Z;
  toLowerCase : string -> string
}.

(** How many URLs have been created and clock readings taken, and which URLs
    have been revoked, latest first. *)
Record Browser : Set := mkBrowser {
  minted : nat;
  revoked : list string;
  clock_reads : nat
}.

(** [String.prototype.includes]: some suffix of [s] starts with [part]. *)
Fixpoint includes (s part : string) : bool :=
  String.prefix part s
  || match s with
     | EmptyString => false
     | String _ s' => includes s' part
     end.

(** [Array.prototype.sort] with a comparison function: the sort is stable,
    and [a] goes before [b] when the function is negative on them.  Each
    element is put in front of the first one it does not come after. *)
Fixpoint sort_insert {A : Type} (compare : A -> A -> Z) (a : A) (l : list A)
    : list A :=
  match l with
  | [] => [a]
  | b :: l' =>
      if (compare a b <=? 0)%Z then a :: b :: l'
      else b :: sort_insert compare a l'
  end.

Definition array_sort {A : Type} (compare : A -> A -> Z) (l : list A)
    : list A :=
  fold_right (sort_insert compare) [] l.

(** The order the history is asked to be shown in. *)
Definition in_order (order : SortOrder) (a b : HistoryItem) : Prop :=
  match order with
  | newest => (item_timestamp b <= item_timestamp a)%Z
  | oldest => (item_timestamp a <= item_timestamp b)%Z
  end.

(** The type of a file or blob, [Blob.prototype.type]. *)
Class Files {N : Number} {H : Host} : Type := {
  blob_type : Blob -> string
}.

Section Application.
Context {N : Number} {H : Host} {P : Page} {F : Files}.

Record ProcessedImage : Type := mkProcessedImage {
  processed_blob : Blob;
  processed_url : string;
  processed_originalSize : Z;
  processed_newSize : Z;
  processed_width : Z;
  processed_height : Z
}.

Record AppModel : Type := mkApp {
  state : AppState;
  originalFile : option Blob;
  fileName : string;
  previewUrl : option string;
  targetKB : string;
  result : option ProcessedImage;
  toast : option ToastMessage;
  history : list HistoryItem;
  historySearch : string;
  historySort : SortOrder;
  isCropping : bool;
  completedCrop : option PixelCrop;
  imgRef : option Image
}.

Definition setState (v : AppState) (app : AppModel) : AppModel :=
  mkApp v (originalFile app) (fileName app) (previewUrl app) (targetKB app)
        (result app) (toast app) (history app) (historySearch app)
        (historySort app) (isCropping app) (completedCrop app) (imgRef app).

Definition setOriginalFile (v : option Blob) (app : AppModel) : AppModel :=
  mkApp (state app) v (fileName app) (previewUrl app) (targetKB app)
        (result app) (toast app) (history app) (historySearch app)
        (historySort app) (isCropping app) (completedCrop app) (imgRef app).

Definition setPreviewUrl (v : option string) (app : AppModel) : AppModel :=
  mkApp (state app) (originalFile app) (fileName app) v (targetKB app)
        (result app) (toast app) (history app) (historySearch app)
        (historySort app) (isCropping app) (completedCrop app) (imgRef app).

Definition setResult (v : option ProcessedImage) (app : AppModel) : AppModel :=
  mkApp (state app) (originalFile app) (fileName app) (previewUrl app)
        (targetKB app) v (toast app) (history app) (historySearch app)
        (historySort app) (isCropping app) (completedCrop app) (imgRef app).

Definition setToast (v : option ToastMessage) (app : AppModel) : AppModel :=
  mkApp (state app) (originalFile app) (fileName app) (previewUrl app)
        (targetKB app) (result app) v (history app) (historySearch app)
        (historySort app) (isCropping app) (completedCrop app) (imgRef app).

Definition setHistory (update : list HistoryItem -> list HistoryItem)
    (app : AppModel) : AppModel :=
  mkApp (state app) (originalFile app) (fileName app) (previewUrl app)
        (targetKB app) (result app) (toast app) (update (history app))
        (historySearch app) (historySort app) (isCropping app)
        (completedCrop app) (imgRef app).

Definition setIsCropping (v : bool) (app : AppModel) : AppModel :=
  mkApp (state app) (originalFile app) (fileName app) (previewUrl app)
        (targetKB app) (result app) (toast app) (history app)
        (historySearch app) (historySort app) v (completedCrop app)
        (imgRef app).

(** [URL.createObjectURL] of a blob, [URL.revokeObjectURL], [Date.now()]. *)
Definition createObjectURL (br : Browser) : string * Browser :=
  (objectURL (minted br),
   mkBrowser (S (minted br)) (revoked br) (clock_reads br)).

Definition revokeObjectURL (url : string) (br : Browser) : Browser :=
  mkBrowser (minted br) (url :: revoked br) (clock_reads br).

Definition Date_now (br : Browser) : Z * Browser :=
  (clock (clock_reads br),
   mkBrowser (minted br) (revoked br) (S (clock_reads br))).

(** The decimal writing of an integer, [Number.prototype.toString]. *)
Definition integer_toString (z : Z) : string :=
  NilZero.string_of_int (Z.to_int z).

(** [compressImageToTarget] as the page sees it.  Before anything else
    [fileToImage] makes an object URL for the file, [img.src =
    URL.createObjectURL(file)], whether the image loads or not, and nothing
    revokes it; the rest of the call is on a canvas of its own. *)
Definition compressImageToTarget_on_page (file : Blob) (targetSizeKB : num)
    (br : Browser) : completion CompressionResult * Browser :=
  let (src, br) := createObjectURL br in
  (fst (compressImageToTarget file targetSizeKB start), br).

(** [handleResize].  The [try] block is left for its [catch] by a rejected
    compression, and by [URL.createObjectURL] when the blob is [null]: that
    call throws before any URL is made. *)
Definition handleResize (app : AppModel) (br : Browser)
    : AppModel * Browser :=
  match originalFile app with
  | None => (app, br)
  | Some file =>
      if String.eqb (targetKB app) "" then (app, br) else
      let invalid :=
        (setToast (Some (mkToast toast_error
                           "Please enter a valid file size in KB")) app, br) in
      match parseInt (targetKB app) with
      | None => invalid
      | Some kb =>
          if (kb <=? 0)%Z then invalid else
          let app := setState PROCESSING app in
          let (outcome, br) :=
            compressImageToTarget_on_page file (of_Z kb) br in
          let failed :=
            (setState SELECTED
               (setToast (Some (mkToast toast_error
                                  "Failed to process image.")) app), br) in
          match outcome with
          | Thrown _ => failed
          | Returned r =>
              match blob r with
              | None => failed
              | Some b =>
                  let (url, br) := createObjectURL br in
                  let (historyUrl, br) := createObjectURL br in
                  let newResult :=
                    mkProcessedImage b url (size file) (size b)
                                     (width r) (height r) in
                  let app := setResult (Some newResult) app in
                  let (stamp, br) := Date_now br in
                  let (timestamp, br) := Date_now br in
                  let newItem :=
                    mkHistoryItem (integer_toString stamp) historyUrl
                                  (fileName app) (size file) (size b)
                                  timestamp in
                  let app := setHistory (fun prev => newItem :: prev) app in
                  let app := setState COMPLETED app in
                  (setToast (Some (mkToast toast_success
                                     "Image resized successfully!")) app, br)
              end
          end
      end
  end.

(** [performCrop].  The region is the one the cropper last reported, the
    image the one on display; the crop is asked for in the type of the file. *)
Definition performCrop (app : AppModel) (br : Browser) : AppModel * Browser :=
  match completedCrop app, imgRef app, originalFile app with
  | Some crop, Some image, Some file =>
      match fst (getCroppedImg image crop (Some (blob_type file)) start) with
      | Returned croppedBlob =>
          let (newUrl, br) := createObjectURL br in
          let br :=
            match previewUrl app with
            | Some url =>
                if String.eqb url "" then br else revokeObjectURL url br
            | None => br
            end in
          let app := setOriginalFile (Some croppedBlob) app in
          let app := setPreviewUrl (Some newUrl) app in
          let app := setIsCropping false app in
          (setToast (Some (mkToast toast_success
                             "Image cropped successfully")) app, br)
      | Thrown _ =>
          (setToast (Some (mkToast toast_error "Failed to crop image")) app,
           br)
      end
  | _, _, _ => (setIsCropping false app, br)
  end.

(** [deleteHistoryItem]. *)
Definition deleteHistoryItem (id : string) (app : AppModel) (br : Browser)
    : AppModel * Browser :=
  let itemToDelete :=
    find (fun item => String.eqb (item_id item) id) (history app) in
  let br :=
    match itemToDelete with
    | Some item => revokeObjectURL (item_url item) br
    | None => br
    end in
  let app :=
    setHistory (fun prev =>
                  filter (fun item => negb (String.eqb (item_id item) id)) prev)
               app in
  (setToast (Some (mkToast toast_success "Removed from history")) app, br).

(** [filteredHistory]: [filter] makes a new array, which [sort] orders. *)
Definition filteredHistory (app : AppModel) : list HistoryItem :=
  array_sort
    (fun a b =>
       match historySort app with
       | newest => item_timestamp b - item_timestamp a
       | oldest => item_timestamp a - item_timestamp b
       end)%Z
    (filter (fun item =>
               includes (toLowerCase (item_fileName item))
                        (toLowerCase (historySearch app)))
            (history app)).

End Application.

(** ** Sizes as text *)

(** [formatFileSizeDual] of [src/utils/fileHelpers.ts], and the two library
    functions it calls on its numbers. *)

(** The digit a character stands for: the characters from "0" to "9" have
    the codes 48 to 57. *)
Definition digit_of (c : ascii) : option Z :=
  let code := Z.of_N (N_of_ascii c) in
  if (48 <=? code)%Z && (code <=? 57)%Z then Some (code - 48)%Z else None.

(** The digits at the front of [s], read as an integer that continues [acc];
    how many there are, counted from [count]; and what follows them. *)
Fixpoint read_digits (s : string) (acc : Z) (count : nat)
    : Z * nat * string :=
  match s with
  | String c s' =>
      match digit_of c with
      | Some d => read_digits s' (10 * acc + d) (S count)
      | None => (acc, count, s)
      end
  | EmptyString => (acc, count, s)
  end.

(** A sign in front, and what follows it. *)
Definition strip_sign (s : string) : bool * string :=
  match s with
  | String "-" s' => (true, s')
  | String "+" s' => (false, s')
  | _ => (false, s)
  end.

(** A number below one hundred on two digits. *)
Definition two_digits (n : Z) : string :=
  if (n <? 10)%Z then String "0" (integer_toString n) else integer_toString n.

Section Formatting.
Context {N : Number}.
Local Open Scope num_scope.

(** [Number.prototype.toFixed(2)], for a number below 10^21 in magnitude.
    With [n] the integer for which [n / 100] is nearest to the magnitude, the
    larger of two, the text is the digits of [n], at least three of them, with
    a point before the last two, and the sign of a number below zero in
    front. *)
Definition toFixed_2 (x : num) : string :=
  match value x with
  | None => "NaN"
  | Some v =>
      let n := Qfloor (Qabs v * 100 + (1 # 2)) in
      ((if Qle_bool 0 v then "" else "-")
       ++ integer_toString (n / 100) ++ "." ++ two_digits (n mod 100))%string
  end.

(** [parseFloat], as far as decimals without an exponent go: a sign, digits,
    a point, digits, and whatever follows is not read.  The number is the one
    the decimal read denotes; [None] is NaN, for a text with no digit to
    read.  In binary64 the digits read as one integer are divided by the power
    of ten, which rounds once, as reading the decimal does. *)
Definition parseFloat (s : string) : option num :=
  let (negative, s) := strip_sign s in
  let '(whole, n, rest) := read_digits s 0 0 in
  let '(all, m, _) :=
    match rest with
    | String "." rest' => read_digits rest' whole 0
    | _ => (whole, 0%nat, rest)
    end in
  if (n + m =? 0)%nat then None
  else
    let x := of_Z all / of_Z (10 ^ Z.of_nat m) in
    Some (if negative then of_Z 0 - x else x).

Definition formatFileSizeDual (bytes : Z) : string :=
  if (bytes =? 0)%Z then "0 KB" else
  let kb := toFixed_2 (of_Z bytes / of_Z 1024) in
  let mb := toFixed_2 (of_Z bytes / (of_Z 1024 * of_Z 1024)) in
  if match parseFloat mb with
     | Some m => m <? dec 1 100
     | None => false
     end
  then (kb ++ " KB")%string
  else (mb ++ " MB (" ++ kb ++ " KB)")%string.

End Formatting.

(** ** A synthetic page *)

(** URLs numbered from zero, a clock that advances by one at each reading
    from 1700000000000, decimal integers for [parseInt], and names already in
    lower case. *)
Definition stub_page : Page := {|
  objectURL := fun n => ("blob:" ++ NilZero.string_of_uint (Nat.to_uint n))%string;
  clock := fun n => (1700000000000 + Z.of_nat n)%Z;
  parseInt := fun s => option_map Z.of_int (NilZero.int_of_string s);
  toLowerCase := fun s => s
|}.

(** Two items of a history, the later one first. *)
Definition item_later : HistoryItem :=
  mkHistoryItem "1700000000007" "blob:3" "beach.jpg" 2000000 51000
                1700000000008.

Definition item_earlier : HistoryItem :=
  mkHistoryItem "1700000000001" "blob:1" "tree.png" 900000 20000
                1700000000002.

(** A component with a file of a million bytes selected, a target typed in,
    and that history. *)
Definition app_selected {N : Number} {H : Host} {P : Page}
    (file : Blob) (target : string) : AppModel :=
  mkApp SELECTED (Some file) "photo.jpg" (Some "blob:0"%string) target None
        None [item_later; item_earlier] "" newest false None None.

Definition browser_4 : Browser := mkBrowser 4 [] 4.

(** * Properties *)

(** ** The two arithmetics *)

(** The decimal literals of the source, in binary64. *)
Lemma binary64_literals :
  @dec Binary64_Number 1 100 = 0.01%float /\
  @dec Binary64_Number 5 100 = 0.05%float /\
  @dec Binary64_Number 9 10 = 0.9%float /\
  @dec Binary64_Number 1 10 = 0.1%float /\
  @dec Binary64_Number 5 10 = 0.5%float /\
  @of_Z Binary64_Number 1 = 1.0%float /\
  @of_Z Binary64_Number 2 = 2%float /\
  @of_Z Binary64_Number 1024 = 1024%float.
Proof. repeat split; vm_compute; reflexivity. Qed.

Lemma binary64_floor_examples :
  @floor Binary64_Number 3.75%float = 3%Z /\
  @floor Binary64_Number (-3.75)%float = (-4)%Z /\
  @trunc Binary64_Number (-3.75)%float = (-3)%Z /\
  @round Binary64_Number 3.75%float = 4%Z /\
  @round Binary64_Number 2.5%float = 3%Z /\
  @floor Binary64_Number (@of_Z Binary64_Number 1000 * 0.9)%float = 900%Z.
Proof. repeat split; vm_compute; reflexivity. Qed.

(** ** The cropper *)

Section Cropper.
Context {N : Number} {H : Host}.

(** What a crop does, whatever the region: without a context it throws before
    drawing; with one it draws, requests exactly one encoding at quality 1 and
    hands on the host's answer. *)
Lemma getCroppedImg_run (image : Image) (crop : PixelCrop) (type : option string) :
  let ty := match type with Some t => t | None => "image/jpeg"%string end in
  getCroppedImg image crop type start =
  if context2d then
    let c := cropped_canvas image crop in
    (match toBlob c ty (of_Z 1) with
     | Some b => Returned b
     | None => Thrown (Error "Canvas is empty")
     end,
     mkWorld c [mkEncoding c ty (of_Z 1)])
  else
    (Thrown (Error "No 2d context"),
     mkWorld (mkCanvas (canvas_width (cropped_canvas image crop))
                       (canvas_height (cropped_canvas image crop)) []) []).
Proof.
  unfold getCroppedImg, bind, createCanvas, set_canvas_width, set_canvas_height,
    get_canvas, draw, canvas_toBlob, throw, ret, start, cropped_canvas,
    scaleX, scaleY.
  cbn [canvas canvas_width canvas_height encodings drawn app].
  destruct context2d; cbn [negb].
  - destruct (toBlob _ _ _); reflexivity.
  - reflexivity.
Qed.

End Cropper.

(** C10. [getCroppedImg] validates nothing: whatever the region, a call that
    throws throws one of its two errors, the missing context (nothing was
    encoded) or the empty encoding (the host answered [null] to the one
    request); otherwise it returns the host's answer to that one request, made
    on the canvas the region was drawn on. *)
Theorem getCroppedImg_no_validation {N : Number} {H : Host}
    (image : Image) (crop : PixelCrop) (type : option string) :
  let ty := match type with Some t => t | None => "image/jpeg"%string end in
  let c := cropped_canvas image crop in
  match getCroppedImg image crop type start with
  | (Returned b, w) =>
      context2d = true /\
      toBlob c ty (of_Z 1) = Some b /\
      w = mkWorld c [mkEncoding c ty (of_Z 1)]
  | (Thrown e, w) =>
      (e = Error "No 2d context" /\ context2d = false /\ encodings w = []) \/
      (e = Error "Canvas is empty" /\ context2d = true /\
       toBlob c ty (of_Z 1) = None /\
       w = mkWorld c [mkEncoding c ty (of_Z 1)])
  end.
Proof.
  intros ty c. rewrite getCroppedImg_run. fold ty. fold c.
  destruct context2d.
  - cbv zeta. destruct (toBlob c ty (of_Z 1)) eqn:E.
    + repeat split.
    + right. repeat split.
  - left. repeat split.
Qed.

(** A region outside the image, of negative extent, goes through as well. *)
Example getCroppedImg_outside (a : arithmetic) :
  let N := number_of a in
  let H := stub_host a picture_5_on_4 true (fun _ _ _ => Some 7%Z) in
  fst (getCroppedImg picture_5_on_4
         (mkPixelCrop (of_Z 9) (of_Z (-2)) (of_Z (-3)) (of_Z 0)) None start)
  = Returned 7%Z.
Proof. destruct a; reflexivity. Qed.

(** *** The size of the cropped artifact *)

Lemma reflect_unsigned_long_small (default v : Z) :
  (0 <= v <= 2147483647)%Z -> reflect_unsigned_long default v = v.
Proof.
  intros Hv. unfold reflect_unsigned_long.
  rewrite Z.mod_small by lia.
  destruct (Z.ltb_spec 2147483647 v); [lia | reflexivity].
Qed.

Lemma exact_trunc_floor (x : Q) :
  (0 <= x)%Q -> @trunc Exact_Number x = @floor Exact_Number x.
Proof.
  destruct x as [n d]. unfold trunc, floor, Qle. cbn.
  intros Hn. apply Z.quot_div_nonneg; lia.
Qed.

(** In exact arithmetic a region of positive extent inside the displayed
    image has a natural extent between [0] and the natural size. *)
Lemma exact_extent_bounds (extent origin : Q) (display natural : Z) :
  Qle_bool 0 origin = true ->
  Qle_bool (Qred (origin + extent)) (inject_Z display) = true ->
  negb (Qle_bool extent 0) = true ->
  (0 <= natural)%Z ->
  let x := Qred (extent * Qred (inject_Z natural / inject_Z display)) in
  (0 <= x)%Q /\ (0 <= Qfloor x <= natural)%Z.
Proof.
  intros Ho Hin Hpos Hnat x.
  apply Qle_bool_iff in Ho. apply Qle_bool_iff in Hin.
  rewrite Qred_correct in Hin.
  apply negb_true_iff in Hpos.
  assert (Hext : (0 < extent)%Q).
  { apply Qnot_le_lt. intros Hle. apply Qle_bool_iff in Hle. congruence. }
  assert (Hd : (0 < inject_Z display)%Q) by lra.
  assert (Hn : (0 <= inject_Z natural)%Q).
  { change 0%Q with (inject_Z 0). rewrite <- Zle_Qle. exact Hnat. }
  assert (Hx : (x == extent * (inject_Z natural / inject_Z display))%Q).
  { unfold x. rewrite Qred_correct, Qred_correct. reflexivity. }
  assert (Hratio : (0 <= inject_Z natural / inject_Z display)%Q).
  { apply Qle_shift_div_l; lra. }
  assert (H0 : (0 <= x)%Q).
  { rewrite Hx. apply Qmult_le_0_compat; lra. }
  assert (H1 : (x <= inject_Z natural)%Q).
  { rewrite Hx.
    setoid_replace (extent * (inject_Z natural / inject_Z display))%Q
      with (inject_Z natural * (extent / inject_Z display))%Q
      by (field; lra).
    assert (He : (extent / inject_Z display <= 1)%Q)
      by (apply Qle_shift_div_r; lra).
    assert (He0 : (0 <= extent / inject_Z display)%Q)
      by (apply Qle_shift_div_l; lra).
    nra. }
  split; [exact H0 | split].
  - rewrite <- (Qfloor_Z 0). apply Qfloor_resp_le. exact H0.
  - rewrite <- (Qfloor_Z natural). apply Qfloor_resp_le. exact H1.
Qed.

(** Dropping the fractional part of a number that is not negative is taking
    its floor. *)
Lemma trunc_floor {N : Number} (x : num) (v : Q) :
  value x = Some v -> (0 <= v)%Q -> trunc x = floor x.
Proof.
  intros Hx Hv. unfold trunc, floor. rewrite Hx.
  destruct v as [n d]. unfold Qle in Hv. cbn in Hv |- *.
  apply Z.quot_div_nonneg; lia.
Qed.

Lemma storable_kept {N : Number} (default : Z) (x : num) :
  storable x -> reflect_unsigned_long default (trunc x) = floor x.
Proof.
  unfold storable. destruct (value x) as [v |] eqn:Hx; [| contradiction].
  intros [Hv Hmax]. rewrite (trunc_floor x v Hx Hv).
  apply reflect_unsigned_long_small. unfold floor. rewrite Hx.
  split; [| exact Hmax].
  rewrite <- (Qfloor_Z 0). apply Qfloor_resp_le. exact Hv.
Qed.

(** C6, as amended.  In whatever arithmetic the program runs, when the two
    extents [region.width * scaleX] and [region.height * scaleY] it computes
    are finite, not negative and below 2^31, the artifact a crop returns has
    their integer parts for pixel dimensions: [floor(region.width * scaleX)]
    by [floor(region.height * scaleY)], the product being the one the program
    computed.  The canvas attributes drop the fractional part, they do not
    round to nearest. *)
Theorem cropped_dimensions_floor {N : Number} {H : Host}
    (image : Image) (crop : PixelCrop) (type : option string) (d : Z * Z) :
  storable (crop_width crop * scaleX image)%num ->
  storable (crop_height crop * scaleY image)%num ->
  cropped_dimensions image crop type = Some d ->
  d = (floor (crop_width crop * scaleX image)%num,
       floor (crop_height crop * scaleY image)%num).
Proof.
  intros Hw Hh Hd.
  unfold cropped_dimensions in Hd. rewrite getCroppedImg_run in Hd.
  assert (Hcw : canvas_width (cropped_canvas image crop)
                = floor (crop_width crop * scaleX image)%num)
    by exact (storable_kept 300 _ Hw).
  assert (Hch : canvas_height (cropped_canvas image crop)
                = floor (crop_height crop * scaleY image)%num)
    by exact (storable_kept 150 _ Hh).
  destruct context2d; [| discriminate].
  cbv zeta in Hd.
  destruct (toBlob _ _ _); [| discriminate].
  cbn [canvas] in Hd. congruence.
Qed.

Section ExactCrop.
#[local] Existing Instance Exact_Number.
Context {H : Host}.

(** In exact arithmetic the extents of every valid region of an image whose
    natural dimensions are at most 2^31 - 1 are such. *)
Lemma valid_crop_storable (image : Image) (crop : PixelCrop) :
  valid_crop image crop ->
  (0 <= naturalWidth image <= 2147483647)%Z ->
  (0 <= naturalHeight image <= 2147483647)%Z ->
  storable (crop_width crop * scaleX image)%num /\
  storable (crop_height crop * scaleY image)%num.
Proof.
  intros (Hx & Hy & Hxw & Hyh & Hw & Hh) Hnw Hnh.
  destruct (exact_extent_bounds _ _ _ (naturalWidth image) Hx Hxw Hw
              (proj1 Hnw)) as (Hx0 & Hfx).
  destruct (exact_extent_bounds _ _ _ (naturalHeight image) Hy Hyh Hh
              (proj1 Hnh)) as (Hy0 & Hfy).
  split.
  - split; [exact Hx0 |].
    apply Z.le_trans with (naturalWidth image); [exact (proj2 Hfx) | lia].
  - split; [exact Hy0 |].
    apply Z.le_trans with (naturalHeight image); [exact (proj2 Hfy) | lia].
Qed.

End ExactCrop.

(** C6 at work in binary64, on the region that covers all of a 640 by 480
    image displayed 303 by 227: a valid region, whose width comes out as 639,
    the double [303 * (640 / 303)] being just below 640. *)
Lemma cropped_dimensions_floor_witness :
  let H := stub_host Binary64 picture_640_on_303 true area_encoder in
  let crop := @whole_crop Binary64_Number H picture_640_on_303 in
  @valid_crop Binary64_Number H picture_640_on_303 crop /\
  (639, 480)%Z =
  (@floor Binary64_Number
     (crop_width crop * @scaleX Binary64_Number H picture_640_on_303)%num,
   @floor Binary64_Number
     (crop_height crop * @scaleY Binary64_Number H picture_640_on_303)%num).
Proof.
  intros H crop. split.
  - vm_compute. repeat split; reflexivity.
  - apply (@cropped_dimensions_floor Binary64_Number H picture_640_on_303
             crop None).
    + vm_compute. split; discriminate.
    + vm_compute. split; discriminate.
    + vm_compute. reflexivity.
Defined.

(** C6, as stated, fails.  The region of 3 by 3 displayed pixels of a 5 by 5
    image displayed 4 by 4 is valid and covers 3.75 natural pixels each way:
    the artifact is 3 by 3, where rounding gives 4 by 4.  Both arithmetics
    agree, every number involved being a double. *)
Lemma cropped_dimensions_not_rounded :
  (let H := stub_host Exact picture_5_on_4 true area_encoder in
   @valid_crop Exact_Number H picture_5_on_4 (crop_3 Exact) /\
   @cropped_dimensions Exact_Number H picture_5_on_4 (crop_3 Exact) None
   = Some (3, 3)%Z /\
   (@round Exact_Number
      (crop_width (crop_3 Exact) * @scaleX Exact_Number H picture_5_on_4)%num,
    @round Exact_Number
      (crop_height (crop_3 Exact) * @scaleY Exact_Number H picture_5_on_4)%num)
   = (4, 4)%Z) /\
  (let H := stub_host Binary64 picture_5_on_4 true area_encoder in
   @valid_crop Binary64_Number H picture_5_on_4 (crop_3 Binary64) /\
   @cropped_dimensions Binary64_Number H picture_5_on_4 (crop_3 Binary64) None
   = Some (3, 3)%Z /\
   (@round Binary64_Number
      (crop_width (crop_3 Binary64)
       * @scaleX Binary64_Number H picture_5_on_4)%num,
    @round Binary64_Number
      (crop_height (crop_3 Binary64)
       * @scaleY Binary64_Number H picture_5_on_4)%num)
   = (4, 4)%Z).
Proof.
  split; vm_compute; repeat split; reflexivity.
Qed.

(** ** The compressor *)

Lemma last_cons {A : Type} (a d : A) (l : list A) :
  last (a :: l) d = last l a.
Proof.
  revert a d. induction l as [| b l IH]; intros a d; [reflexivity |].
  change (last (a :: b :: l) d) with (last (b :: l) d).
  rewrite !IH. reflexivity.
Qed.

Section Compressor.
Context {N : Number} {H : Host}.
Local Open Scope num_scope.

(** *** The first pass, one iteration at a time *)

Lemma first_pass_S (fuel : nat) (t : num) (s : Search) (w : World) :
  first_pass (S fuel) t s w =
  if guard s then
    let w' := requested w (full_encoding (canvas w) (midQ s)) in
    match toBlob (canvas w) "image/jpeg" (midQ s) with
    | None => (Thrown TypeError, w')
    | Some b =>
        first_pass fuel t
          (if of_Z (size b) <=? t then narrowed_up s (Some b)
           else narrowed_down s) w'
    end
  else (Returned s, w).
Proof.
  cbn [first_pass]. unfold guard.
  destruct ((minQ s <=? maxQ s) && (iterations s <? 10)%nat); [| reflexivity].
  unfold bind, getBlob, canvas_toBlob, blob_size, requested, full_encoding, midQ.
  destruct (toBlob _ _ _); reflexivity.
Qed.

(** Induction along the course of the first pass: a property of its runs
    holds if it holds where the pass stops, where the encoder answers [null],
    and is passed down each of the two narrowings. *)
Lemma first_pass_course (t : num)
    (P : nat -> Search -> World -> completion Search * World -> Prop) :
  (forall s w, P O s w (Returned s, w)) ->
  (forall fuel s w, guard s = false -> P (S fuel) s w (Returned s, w)) ->
  (forall fuel s w,
     guard s = true ->
     toBlob (canvas w) "image/jpeg" (midQ s) = None ->
     P (S fuel) s w
       (Thrown TypeError, requested w (full_encoding (canvas w) (midQ s)))) ->
  (forall fuel s w b,
     guard s = true ->
     toBlob (canvas w) "image/jpeg" (midQ s) = Some b ->
     (of_Z (size b) <=? t) = true ->
     let s' := narrowed_up s (Some b) in
     let w' := requested w (full_encoding (canvas w) (midQ s)) in
     P fuel s' w' (first_pass fuel t s' w') ->
     P (S fuel) s w (first_pass fuel t s' w')) ->
  (forall fuel s w b,
     guard s = true ->
     toBlob (canvas w) "image/jpeg" (midQ s) = Some b ->
     (of_Z (size b) <=? t) = false ->
     let s' := narrowed_down s in
     let w' := requested w (full_encoding (canvas w) (midQ s)) in
     P fuel s' w' (first_pass fuel t s' w') ->
     P (S fuel) s w (first_pass fuel t s' w')) ->
  forall fuel s w, P fuel s w (first_pass fuel t s w).
Proof.
  intros Hstop Hguard Hnull Hfit Hlarge.
  induction fuel as [| fuel IH]; intros s w.
  - apply Hstop.
  - rewrite first_pass_S.
    destruct (guard s) eqn:Hg; [| now apply Hguard].
    cbv zeta.
    destruct (toBlob (canvas w) "image/jpeg" (midQ s)) as [b |] eqn:Hb;
      [| now apply Hnull].
    destruct (of_Z (size b) <=? t) eqn:Hsz.
    + apply Hfit; auto.
    + eapply Hlarge; eauto.
Qed.

Lemma tree_from_S (fuel : nat) (s : Search) :
  tree_from (S fuel) s =
  if guard s then
    Try (midQ s) (tree_from fuel (narrowed_up s None))
                 (tree_from fuel (narrowed_down s))
  else Stop.
Proof. reflexivity. Qed.

Lemma tree_from_narrowed_up (fuel : nat) (s : Search) (b : option Blob) :
  tree_from fuel (narrowed_up s b) = tree_from fuel (narrowed_up s None).
Proof. reflexivity. Qed.

Lemma tree_from_initial :
  tree_from 10 initial_search = first_pass_tree 10 (dec 1 100) (of_Z 1) 0.
Proof. unfold tree_from, initial_search. reflexivity. Qed.

Lemma requested_more (w : World) (c : Canvas num Image) (q : num) (qs : list num) :
  c = canvas w ->
  mkWorld (canvas (requested w (full_encoding c q)))
    (encodings (requested w (full_encoding c q))
     ++ map (full_encoding (canvas (requested w (full_encoding c q)))) qs)
  = mkWorld (canvas w) (encodings w ++ map (full_encoding (canvas w)) (q :: qs)).
Proof.
  intros ->. unfold requested. cbn [canvas encodings map].
  rewrite <- app_assoc. reflexivity.
Qed.

(** The qualities a run of the first pass requests: they are appended to the
    record, on the canvas as it stands; they are nodes of the tree, at most
    as many as it is deep; where the tree ascends, the candidates recorded
    among them come in strictly increasing quality; and the pass ends either
    on the last candidate recorded, having tried something unless the tree is
    empty, or on a [TypeError] for an encoding that was [null]. *)
Lemma first_pass_requests (t : num) (fuel : nat) (s : Search) (w : World) :
  exists qs,
    snd (first_pass fuel t s w)
    = mkWorld (canvas w) (encodings w ++ map (full_encoding (canvas w)) qs) /\
    incl qs (nodes (tree_from fuel s)) /\
    (List.length qs <= depth (tree_from fuel s))%nat /\
    (ascending (tree_from fuel s) = true ->
     StronglySorted (fun x y => (x <? y) = true) (recorded (canvas w) t qs)) /\
    match fst (first_pass fuel t s w) with
    | Returned s' =>
        bestBlob s'
        = last (map (toBlob (canvas w) "image/jpeg")
                  (recorded (canvas w) t qs)) (bestBlob s) /\
        (qs = [] -> tree_from fuel s = Stop)
    | Thrown e =>
        e = TypeError /\
        exists q, In q qs /\ toBlob (canvas w) "image/jpeg" q = None
    end.
Proof.
  revert fuel s w.
  apply (first_pass_course t (fun fuel s w r =>
    exists qs,
      snd r = mkWorld (canvas w)
                (encodings w ++ map (full_encoding (canvas w)) qs) /\
      incl qs (nodes (tree_from fuel s)) /\
      (List.length qs <= depth (tree_from fuel s))%nat /\
      (ascending (tree_from fuel s) = true ->
       StronglySorted (fun x y => (x <? y) = true)
         (recorded (canvas w) t qs)) /\
      match fst r with
      | Returned s' =>
          bestBlob s'
          = last (map (toBlob (canvas w) "image/jpeg")
                    (recorded (canvas w) t qs)) (bestBlob s) /\
          (qs = [] -> tree_from fuel s = Stop)
      | Thrown e =>
          e = TypeError /\
          exists q, In q qs /\ toBlob (canvas w) "image/jpeg" q = None
      end)).
  - intros s w. exists []. cbn [fst snd map List.length].
    rewrite app_nil_r. destruct w.
    repeat split; [apply incl_nil_l | apply Nat.le_0_l | constructor].
  - intros fuel s w Hg. exists []. cbn [fst snd map List.length].
    rewrite app_nil_r. destruct w.
    repeat split; [apply incl_nil_l | apply Nat.le_0_l | constructor |].
    intros _. rewrite tree_from_S, Hg. reflexivity.
  - intros fuel s w Hg Hb. exists [midQ s].
    rewrite tree_from_S, Hg. cbn [fst snd nodes depth List.length].
    repeat split.
    + intros q [<- | []]. now left.
    + lia.
    + intros _. unfold recorded. cbn [filter]. rewrite Hb. cbn [fits].
      constructor.
    + exists (midQ s). split; [now left | exact Hb].
  - intros fuel s w b Hg Hb Hsz s' w' (qs & Hw & Hin & Hlen & Hasc & Hr).
    exists (midQ s :: qs).
    rewrite tree_from_S, Hg. cbn [nodes depth List.length ascending].
    unfold s' in Hin, Hlen, Hasc.
    rewrite tree_from_narrowed_up in Hin, Hlen, Hasc.
    assert (Hrec : recorded (canvas w) t (midQ s :: qs)
                   = midQ s :: recorded (canvas w) t qs).
    { unfold recorded. cbn [filter]. rewrite Hb. cbn [fits].
      rewrite Hsz. reflexivity. }
    split; [rewrite Hw; apply requested_more; reflexivity |].
    split; [| split; [lia | split]].
    + intros q [<- | Hq]; [now left | right].
      apply in_or_app. left. now apply Hin.
    + intros Ha. apply andb_true_iff in Ha as [Ha Hal].
      apply andb_true_iff in Ha as [Hall Haf].
      rewrite Hrec. constructor.
      * apply Hasc, Haf.
      * rewrite forallb_forall in Hall. apply Forall_forall.
        intros q Hq. apply filter_In in Hq as [Hq _].
        apply Hall, Hin, Hq.
    + destruct (fst (first_pass fuel t s' w')) as [s'' | e].
      * destruct Hr as [Hbest _]. split; [| discriminate].
        rewrite Hrec. cbn [map]. rewrite last_cons, Hb. exact Hbest.
      * destruct Hr as (-> & q & Hq & Hnull). split; [reflexivity |].
        exists q. split; [now right | exact Hnull].
  - intros fuel s w b Hg Hb Hsz s' w' (qs & Hw & Hin & Hlen & Hasc & Hr).
    exists (midQ s :: qs).
    rewrite tree_from_S, Hg. cbn [nodes depth List.length ascending].
    unfold s' in Hin, Hlen, Hasc.
    assert (Hrec : recorded (canvas w) t (midQ s :: qs)
                   = recorded (canvas w) t qs).
    { unfold recorded. cbn [filter]. rewrite Hb. cbn [fits].
      rewrite Hsz. reflexivity. }
    split; [rewrite Hw; apply requested_more; reflexivity |].
    split; [| split; [lia | split]].
    + intros q [<- | Hq]; [now left | right].
      apply in_or_app. right. now apply Hin.
    + intros Ha. apply andb_true_iff in Ha as [Ha Hal].
      rewrite Hrec. apply Hasc, Hal.
    + destruct (fst (first_pass fuel t s' w')) as [s'' | e].
      * destruct Hr as [Hbest _]. split; [| discriminate].
        rewrite Hrec. exact Hbest.
      * destruct Hr as (-> & q & Hq & Hnull). split; [reflexivity |].
        exists q. split; [now right | exact Hnull].
Qed.

(** Where nothing fitted nothing was recorded, and where everything did,
    everything was. *)
Lemma recorded_none (c : Canvas num Image) (t : num) (qs : list num) :
  (forall q, In q qs -> too_large t (toBlob c "image/jpeg" q) = true) ->
  recorded c t qs = [].
Proof.
  induction qs as [| q qs IH]; intros Hlarge; [reflexivity |].
  unfold recorded. cbn [filter].
  assert (Hq : too_large t (toBlob c "image/jpeg" q) = true)
    by (apply Hlarge; now left).
  destruct (toBlob c "image/jpeg" q) as [b |];
    cbn [too_large fits] in *; [| discriminate].
  apply negb_true_iff in Hq. rewrite Hq.
  apply IH. intros q' Hq'. apply Hlarge. now right.
Qed.

Lemma recorded_all (c : Canvas num Image) (t : num) (qs : list num) :
  (forall q, In q qs -> fits t (toBlob c "image/jpeg" q) = true) ->
  recorded c t qs = qs.
Proof.
  induction qs as [| q qs IH]; intros Hfit; [reflexivity |].
  unfold recorded. cbn [filter].
  rewrite (Hfit q (or_introl eq_refl)). f_equal.
  apply IH. intros q' Hq'. apply Hfit. now right.
Qed.

(** *** The second pass, one iteration at a time *)

Lemma second_pass_S (fuel : nat) (image : Image) (t : num) (s : Scaling)
    (w : World) :
  second_pass (S fuel) image t s w =
  if (iterations2 s <? 15)%nat then
    let w' := rescaled image s w in
    match toBlob (scaled_canvas image (scale s)) "image/jpeg" (dec 5 10) with
    | None => (Thrown TypeError, w')
    | Some b =>
        if of_Z (size b) <=? t then
          (Returned (inl (mkResult (Some b) (scaled_width image (scale s))
                                   (scaled_height image (scale s)))), w')
        else if next_scale s <? dec 1 10 then
          (Returned (inr (stepped image s (iterations2 s))), w')
        else
          second_pass fuel image t (stepped image s (S (iterations2 s))) w'
    end
  else (Returned (inr s), w).
Proof.
  cbn [second_pass].
  destruct (iterations2 s <? 15)%nat; [| reflexivity].
  unfold bind, set_canvas_width, set_canvas_height, draw, getBlob,
    canvas_toBlob, blob_size, rescaled, scaled_encoding, scaled_canvas,
    scaled_width, scaled_height, next_scale, stepped.
  cbn [canvas canvas_width canvas_height drawn encodings app].
  destruct (toBlob _ _ _) as [b |]; [| reflexivity].
  cbn [ret].
  destruct (of_Z (size b) <=? t); [reflexivity |].
  destruct (_ <? _); reflexivity.
Qed.

(** The run of the second pass from a state: it requests encodings at an
    initial segment [scs] of its scales, each on a canvas drawn for that
    scale, and what it yields tells how the segment ended.  Left without a
    result, it has gone through all its scales, and its variables are those
    of [second_pass_exit] and of the last scale. *)
Lemma second_pass_requests (image : Image) (t : num) (fuel : nat) :
  forall (s : Scaling) (w : World),
  exists scs rest,
    second_pass_scales fuel (scale s) (iterations2 s) = scs ++ rest /\
    snd (second_pass fuel image t s w)
    = mkWorld (last (map (scaled_canvas image) scs) (canvas w))
              (encodings w ++ map (scaled_encoding image) scs) /\
    match fst (second_pass fuel image t s w) with
    | Returned (inr s') =>
        rest = [] /\
        (scale s', iterations2 s')
        = second_pass_exit fuel (scale s) (iterations2 s) /\
        cur_width s' = last (map (scaled_width image) scs) (cur_width s) /\
        cur_height s' = last (map (scaled_height image) scs) (cur_height s)
    | Returned (inl result) =>
        exists sc scs' b,
          scs = scs' ++ [sc] /\
          toBlob (scaled_canvas image sc) "image/jpeg" (dec 5 10) = Some b /\
          (of_Z (size b) <=? t) = true /\
          result = mkResult (Some b) (scaled_width image sc)
                            (scaled_height image sc)
    | Thrown e =>
        e = TypeError /\
        exists sc scs',
          scs = scs' ++ [sc] /\
          toBlob (scaled_canvas image sc) "image/jpeg" (dec 5 10) = None
    end.
Proof.
  induction fuel as [| fuel IH]; intros s w.
  - exists [], []. cbn. rewrite app_nil_r. destruct w. repeat split.
  - rewrite second_pass_S. cbn [second_pass_scales second_pass_exit].
    destruct (iterations2 s <? 15)%nat.
    2:{ exists [], []. cbn. rewrite app_nil_r. destruct w. repeat split. }
    cbv zeta. fold (next_scale s).
    destruct (toBlob (scaled_canvas image (scale s)) "image/jpeg" (dec 5 10))
      as [b |] eqn:Hb.
    2:{ exists [scale s], (if next_scale s <? dec 1 10 then []
                           else second_pass_scales fuel (next_scale s)
                                  (S (iterations2 s))).
        cbn [fst snd map last app]. repeat split.
        exists (scale s), []. split; [reflexivity | exact Hb]. }
    destruct (of_Z (size b) <=? t) eqn:Hsz.
    { exists [scale s], (if next_scale s <? dec 1 10 then []
                         else second_pass_scales fuel (next_scale s)
                                (S (iterations2 s))).
      cbn [fst snd map last app]. repeat split.
      exists (scale s), [], b. repeat split; assumption. }
    destruct (next_scale s <? dec 1 10) eqn:Hbreak.
    { exists [scale s], []. cbn [fst snd map last app]. repeat split. }
    destruct (IH (stepped image s (S (iterations2 s))) (rescaled image s w))
      as (scs & rest & Hsc & Hw & Hr).
    exists (scale s :: scs), rest.
    cbn [scale iterations2 stepped cur_width cur_height] in Hsc, Hr.
    split; [cbn [app]; now rewrite Hsc |].
    split.
    { rewrite Hw. unfold rescaled. cbn [canvas encodings map].
      rewrite last_cons, <- app_assoc. reflexivity. }
    destruct (fst (second_pass fuel image t
                     (stepped image s (S (iterations2 s)))
                     (rescaled image s w))) as [[result | s'] | e].
    + destruct Hr as (sc & scs' & b' & -> & Hb' & Hsz' & ->).
      exists sc, (scale s :: scs'), b'. repeat split; assumption.
    + destruct Hr as (-> & Hexit & Hcw & Hch).
      cbn [map]. rewrite !last_cons. repeat split; assumption.
    + destruct Hr as (-> & sc & scs' & -> & Hb').
      split; [reflexivity |].
      exists sc, (scale s :: scs'). split; [reflexivity | exact Hb'].
Qed.

(** *** The whole call *)

Lemma compressImageToTarget_run (file : Blob) (targetSizeKB : num) :
  compressImageToTarget file targetSizeKB start =
  match decode file with
  | None => (Thrown LoadError, start)
  | Some image =>
      if context2d then
        let t := targetSizeKB * of_Z 1024 in
        match first_pass 10 t initial_search (mkWorld (full_canvas image) [])
        with
        | (Thrown e, w) => (Thrown e, w)
        | (Returned s, w) =>
            match bestBlob s with
            | Some b =>
                (Returned (mkResult (Some b) (image_width image)
                                    (image_height image)), w)
            | None =>
                match second_pass 15 image t (initial_scaling image) w with
                | (Thrown e, w') => (Thrown e, w')
                | (Returned (inl result), w') => (Returned result, w')
                | (Returned (inr s2), w') =>
                    (Returned (mkResult
                                 (toBlob (canvas w') "image/jpeg" (dec 1 10))
                                 (cur_width s2) (cur_height s2)),
                     requested w' (full_encoding (canvas w') (dec 1 10)))
                end
            end
        end
      else (Thrown (Error "Could not get canvas context"),
            mkWorld (mkCanvas 300 150 []) [])
  end.
Proof.
  unfold compressImageToTarget, fileToImage.
  destruct (decode file) as [image |]; [| reflexivity].
  unfold bind at 1. unfold ret at 1. unfold bind at 1.
  unfold createCanvas at 1. cbn [start encodings].
  destruct context2d; [| reflexivity]. cbn [negb].
  unfold bind at 1. unfold set_canvas_width at 1.
  unfold bind at 1. unfold set_canvas_height at 1.
  unfold bind at 1. unfold draw at 1.
  cbn [canvas canvas_width canvas_height drawn encodings app].
  unfold bind at 1. fold (full_canvas image). fold initial_search.
  fold (initial_scaling image).
  destruct (first_pass 10 _ initial_search _) as [[s | e] w]; [| reflexivity].
  destruct (bestBlob s) as [b |]; [reflexivity |].
  unfold bind at 1.
  destruct (second_pass 15 _ _ _ w) as [[[result | s2] | e] w'];
    reflexivity.
Qed.

(** *** The loops stop by themselves *)

Lemma depth_first_pass_tree (fuel : nat) :
  forall (lo hi : num) (n : nat),
  (depth (first_pass_tree fuel lo hi n) <= fuel)%nat.
Proof.
  induction fuel as [| fuel IH]; intros lo hi n; cbn [first_pass_tree depth].
  - apply Nat.le_refl.
  - destruct ((lo <=? hi) && (n <? 10)%nat); cbn [depth]; [| lia].
    cbv zeta.
    pose proof (IH ((lo + hi) / of_Z 2 + dec 5 100) hi (S n)).
    pose proof (IH lo ((lo + hi) / of_Z 2 - dec 5 100) (S n)).
    lia.
Qed.

Lemma length_second_pass_scales (fuel : nat) :
  forall (scale : num) (n : nat),
  (List.length (second_pass_scales fuel scale n) <= fuel)%nat.
Proof.
  induction fuel as [| fuel IH]; intros scale n;
    cbn [second_pass_scales List.length].
  - apply Nat.le_refl.
  - destruct (n <? 15)%nat; cbn [List.length]; [| lia].
    cbv zeta. destruct (_ <? _); cbn [List.length]; [lia |].
    pose proof (IH (scale - dec 1 10) (S n)). lia.
Qed.

(** More fuel than the iterations left changes nothing: the fuel of the
    model is never what ends a loop. *)
Lemma first_pass_fuel (t : num) (k fuel : nat) :
  forall (s : Search) (w : World),
  (10 - iterations s <= fuel)%nat ->
  first_pass (fuel + k) t s w = first_pass fuel t s w.
Proof.
  induction fuel as [| fuel IH]; intros s w Hfuel.
  - assert (Hg : guard s = false).
    { unfold guard. apply andb_false_iff. right.
      apply Nat.ltb_ge. lia. }
    destruct k as [| k]; [reflexivity |].
    cbn [Nat.add]. rewrite first_pass_S, Hg. reflexivity.
  - cbn [Nat.add]. rewrite !first_pass_S.
    destruct (guard s); [| reflexivity]. cbv zeta.
    destruct (toBlob _ _ _) as [b |]; [| reflexivity].
    apply IH. destruct (_ <=? _); cbn [iterations narrowed_up narrowed_down];
      lia.
Qed.

Lemma second_pass_fuel (image : Image) (t : num) (k fuel : nat) :
  forall (s : Scaling) (w : World),
  (15 - iterations2 s <= fuel)%nat ->
  second_pass (fuel + k) image t s w = second_pass fuel image t s w.
Proof.
  induction fuel as [| fuel IH]; intros s w Hfuel.
  - assert (Hg : (iterations2 s <? 15)%nat = false)
      by (apply Nat.ltb_ge; lia).
    destruct k as [| k]; [reflexivity |].
    cbn [Nat.add]. rewrite second_pass_S, Hg. reflexivity.
  - cbn [Nat.add]. rewrite !second_pass_S.
    destruct (iterations2 s <? 15)%nat; [| reflexivity]. cbv zeta.
    destruct (toBlob _ _ _) as [b |]; [| reflexivity].
    destruct (_ <=? _); [reflexivity |].
    destruct (_ <? _); [reflexivity |].
    apply IH. cbn [iterations2 stepped]. lia.
Qed.

(** *** What a call requests *)

(** The record of a call is in three parts: the qualities [qs] tried on the
    full-size canvas, nodes of the tree of the first pass along one of its
    courses; an initial segment [scs] of the scales of the second pass; and
    at the end nothing, or the one request at quality 0.1 on the canvas as the
    second pass left it. *)
Lemma compressImageToTarget_requests (file : Blob) (targetSizeKB : num) :
  let w := snd (compressImageToTarget file targetSizeKB start) in
  match decode file with
  | None => encodings w = []
  | Some image =>
      exists (qs scs rest : list num) (final : list Encoding),
        encodings w
        = map (full_encoding (full_canvas image)) qs
          ++ map (scaled_encoding image) scs ++ final /\
        incl qs (nodes (tree_from 10 initial_search)) /\
        (List.length qs <= depth (tree_from 10 initial_search))%nat /\
        second_pass_scales 15 (dec 9 10) 0 = scs ++ rest /\
        (final = [] \/
         final = [full_encoding
                    (last (map (scaled_canvas image) scs) (full_canvas image))
                    (dec 1 10)])
  end.
Proof.
  intros w. unfold w. rewrite compressImageToTarget_run.
  destruct (decode file) as [image |]; [| reflexivity].
  destruct context2d.
  2:{ exists [], [], (second_pass_scales 15 (dec 9 10) 0), [].
      repeat split; [apply incl_nil_l | apply Nat.le_0_l | now left]. }
  cbv zeta. set (t := targetSizeKB * of_Z 1024).
  destruct (first_pass_requests t 10 initial_search
              (mkWorld (full_canvas image) []))
    as (qs & Hw1 & Hin & Hlen & _ & _).
  cbn [canvas encodings app] in Hw1.
  destruct (first_pass 10 t initial_search _) as [[s | e] w1];
    cbn [snd] in Hw1; subst w1.
  2:{ exists qs, [], (second_pass_scales 15 (dec 9 10) 0), [].
      cbn [snd encodings map app]. rewrite app_nil_r.
      repeat split; [assumption | assumption | now left]. }
  destruct (bestBlob s) as [b |].
  { exists qs, [], (second_pass_scales 15 (dec 9 10) 0), [].
    cbn [snd encodings map app]. rewrite app_nil_r.
    repeat split; [assumption | assumption | now left]. }
  destruct (second_pass_requests image t 15 (initial_scaling image)
              (mkWorld (full_canvas image)
                 (map (full_encoding (full_canvas image)) qs)))
    as (scs & rest & Hsc & Hw2 & _).
  cbn [canvas encodings scale iterations2 initial_scaling] in Hw2, Hsc.
  destruct (second_pass 15 image t _ _) as [[[result | s2] | e] w2];
    cbn [snd] in Hw2; subst w2.
  - exists qs, scs, rest, []. cbn [snd encodings]. rewrite app_nil_r.
    repeat split; [assumption | assumption | assumption | now left].
  - exists qs, scs, rest,
      [full_encoding (last (map (scaled_canvas image) scs) (full_canvas image))
         (dec 1 10)].
    unfold requested. cbn [snd canvas encodings].
    rewrite <- app_assoc.
    repeat split; [assumption | assumption | assumption | now right].
  - exists qs, scs, rest, []. cbn [snd encodings]. rewrite app_nil_r.
    repeat split; [assumption | assumption | assumption | now left].
Qed.

(** C4.  A call requests at most 10 encodings in its first pass (on the
    full-size canvas), then at most 15 in its second (at quality 0.5, on
    scaled canvases), then at most one more (at quality 0.1): at most 26 in
    all.  The call is a total function, and its two loops end by their own
    conditions: fuel beyond 10 and 15 changes nothing. *)
Theorem compressImageToTarget_bounded (file : Blob) (targetSizeKB : num) :
  let w := snd (compressImageToTarget file targetSizeKB start) in
  match decode file with
  | None => encodings w = []
  | Some image =>
      exists (qs scs : list num) (final : list Encoding),
        encodings w
        = map (full_encoding (full_canvas image)) qs
          ++ map (scaled_encoding image) scs ++ final /\
        (List.length qs <= 10)%nat /\
        (List.length scs <= 15)%nat /\
        (List.length final <= 1)%nat /\
        Forall (fun e => enc_quality e = dec 1 10) final
  end /\
  (List.length (encodings w) <= 26)%nat /\
  (forall k t w0,
     first_pass (10 + k) t initial_search w0
     = first_pass 10 t initial_search w0) /\
  (forall k image t w0,
     second_pass (15 + k) image t (initial_scaling image) w0
     = second_pass 15 image t (initial_scaling image) w0).
Proof.
  intros w.
  pose proof (compressImageToTarget_requests file targetSizeKB) as Hparts.
  cbv zeta in Hparts. fold w in Hparts.
  pose proof (depth_first_pass_tree 10 (dec 1 100) (of_Z 1) 0) as Hd.
  rewrite <- tree_from_initial in Hd.
  pose proof (length_second_pass_scales 15 (dec 9 10) 0) as Hl.
  destruct (decode file) as [image |].
  - destruct Hparts as (qs & scs & rest & final & Hw & _ & Hlen & Hsc & Hfin).
    rewrite Hsc, length_app in Hl.
    assert (Hf : (List.length final <= 1)%nat)
      by (destruct Hfin as [-> | ->]; cbn; lia).
    split; [| split; [| split]].
    + exists qs, scs, final. repeat split; try assumption; try lia.
      destruct Hfin as [-> | ->]; repeat constructor.
    + rewrite Hw, !length_app, !length_map. lia.
    + intros k t w0. apply (first_pass_fuel t k 10). cbn. lia.
    + intros k image' t w0. apply (second_pass_fuel image' t k 15). cbn. lia.
  - split; [exact Hparts | split; [| split]].
    + rewrite Hparts. cbn. lia.
    + intros k t w0. apply (first_pass_fuel t k 10). cbn. lia.
    + intros k image' t w0. apply (second_pass_fuel image' t k 15). cbn. lia.
Qed.

End Compressor.

(** ** The searches in the two arithmetics *)

(** The tree of the first pass is the same in both but for the rounding of
    its qualities: four tries on every course, all within [0.01, 1], each
    fitted try below the tries that follow it. *)
Lemma first_pass_tree_computed (a : arithmetic) :
  let N := number_of a in
  let T := first_pass_tree 10 (dec 1 100) (of_Z 1) 0 in
  forallb in_range (nodes T) = true /\
  ascending T = true /\
  depth T = 4%nat /\
  List.length (nodes T) = 15%nat.
Proof. destruct a; vm_compute; repeat split. Qed.

Section ExactTree.
#[local] Existing Instance Exact_Number.

Lemma first_pass_tree_exact :
  first_pass_tree 10 (dec 1 100) (of_Z 1) 0 =
  Try (101 # 200)
    (Try (311 # 400)
       (Try (731 # 800) (Try (1571 # 1600) Stop Stop)
                        (Try (1353 # 1600) Stop Stop))
       (Try (513 # 800) (Try (227 # 320) Stop Stop)
                        (Try (917 # 1600) Stop Stop)))
    (Try (93 # 400)
       (Try (59 # 160) (Try (699 # 1600) Stop Stop)
                       (Try (481 # 1600) Stop Stop))
       (Try (77 # 800) (Try (263 # 1600) Stop Stop)
                       (Try (9 # 320) Stop Stop))).
Proof. reflexivity. Qed.

End ExactTree.

Section BothArithmetics.
Context (a : arithmetic).
#[local] Hint Extern 0 Number => exact (number_of a) : typeclass_instances.
Context {H : Host}.
Local Open Scope num_scope.

Lemma second_pass_computed :
  second_pass_scales 15 (dec 9 10) 0 = scales a /\
  (snd (second_pass_exit 15 (dec 9 10) 0) = 8%nat /\
   (fst (second_pass_exit 15 (dec 9 10) 0) <? dec 1 10) = true) /\
  in_range (dec 5 10) = true /\
  in_range (dec 1 10) = true.
Proof. destruct a; vm_compute; repeat split. Qed.

(** C7.  In either arithmetic, every quality a call passes to the encoder
    lies in [0.01, 1]: so does every node of the tree of the first pass,
    whatever fitted and whatever did not, and every request of a call is at
    such a node, or at 0.5, or at 0.1. *)
Theorem qualities_in_range (file : Blob) (targetSizeKB : num) :
  forallb in_range (nodes (first_pass_tree 10 (dec 1 100) (of_Z 1) 0)) = true /\
  Forall
    (fun e =>
       in_range (enc_quality e) = true /\
       (In (enc_quality e) (nodes (first_pass_tree 10 (dec 1 100) (of_Z 1) 0))
        \/ enc_quality e = dec 5 10 \/ enc_quality e = dec 1 10))
    (encodings (snd (compressImageToTarget file targetSizeKB start))).
Proof.
  destruct (first_pass_tree_computed a) as (Hrange & _).
  destruct second_pass_computed as (_ & _ & Hhalf & Htenth).
  cbv zeta in Hrange.
  split; [exact Hrange |].
  pose proof (compressImageToTarget_requests file targetSizeKB) as Hparts.
  cbv zeta in Hparts.
  destruct (decode file) as [image |]; [| rewrite Hparts; constructor].
  destruct Hparts as (qs & scs & rest & final & -> & Hin & _ & _ & Hfin).
  rewrite tree_from_initial in Hin.
  rewrite forallb_forall in Hrange.
  apply Forall_app. split; [| apply Forall_app; split].
  - apply Forall_forall. intros e He.
    apply in_map_iff in He as (q & <- & Hq). cbn [enc_quality full_encoding].
    apply Hin in Hq. split; [exact (Hrange q Hq) | left; exact Hq].
  - apply Forall_forall. intros e He.
    apply in_map_iff in He as (sc & <- & _).
    cbn [enc_quality scaled_encoding]. split; [exact Hhalf | right; now left].
  - destruct Hfin as [-> | ->]; constructor; [| constructor].
    cbn [enc_quality full_encoding]. split; [exact Htenth | right; now right].
Qed.

(** C8.  In either arithmetic, whatever the encoder answers, the candidates
    the first pass records come in strictly increasing quality, so that one
    that overwrites another is above all those before it; and the candidate
    the pass ends on is the last one recorded. *)
Theorem candidates_ascend (targetSizeBytes : num) (w : World) :
  exists qs,
    snd (first_pass 10 targetSizeBytes initial_search w)
    = mkWorld (canvas w) (encodings w ++ map (full_encoding (canvas w)) qs) /\
    StronglySorted (fun x y => (x <? y) = true)
      (recorded (canvas w) targetSizeBytes qs) /\
    match fst (first_pass 10 targetSizeBytes initial_search w) with
    | Returned s' =>
        bestBlob s'
        = last (map (toBlob (canvas w) "image/jpeg")
                  (recorded (canvas w) targetSizeBytes qs)) None
    | Thrown e => e = TypeError
    end.
Proof.
  destruct (first_pass_tree_computed a) as (_ & Hasc & _).
  cbv zeta in Hasc.
  destruct (first_pass_requests targetSizeBytes 10 initial_search w)
    as (qs & Hw & _ & _ & Hsorted & Hr).
  rewrite tree_from_initial in Hsorted.
  exists qs. split; [exact Hw |]. split; [exact (Hsorted Hasc) |].
  destruct (fst (first_pass 10 targetSizeBytes initial_search w)).
  - exact (proj1 Hr).
  - exact (proj1 Hr).
Qed.

(** When everything fits in the first pass, it ends on a candidate that
    fits: the tree is not empty, so that something was tried. *)
Lemma first_pass_all_fit (t : num) (w : World) :
  (forall q, In q (nodes (first_pass_tree 10 (dec 1 100) (of_Z 1) 0)) ->
             fits t (toBlob (canvas w) "image/jpeg" q) = true) ->
  exists s' b qs,
    first_pass 10 t initial_search w
    = (Returned s',
       mkWorld (canvas w) (encodings w ++ map (full_encoding (canvas w)) qs))
    /\ bestBlob s' = Some b
    /\ (of_Z (size b) <=? t) = true.
Proof.
  intros Hfits.
  destruct (first_pass_tree_computed a) as (_ & _ & Hdepth & _).
  cbv zeta in Hdepth.
  destruct (first_pass_requests t 10 initial_search w)
    as (qs & Hw & Hin & _ & _ & Hr).
  rewrite tree_from_initial in Hin, Hr.
  assert (Hall : recorded (canvas w) t qs = qs)
    by (apply recorded_all; intros q Hq; exact (Hfits q (Hin q Hq))).
  destruct (first_pass 10 t initial_search w) as [[s' | e] w'];
    cbn [fst snd] in Hw, Hr; subst w'.
  - destruct Hr as [Hbest Hstop]. rewrite Hall in Hbest.
    destruct (exists_last (l := qs)) as (qs' & q & Hqs).
    { intros ->. specialize (Hstop eq_refl).
      rewrite Hstop in Hdepth. discriminate. }
    assert (Hq : fits t (toBlob (canvas w) "image/jpeg" q) = true).
    { apply Hfits. apply (Hin q). rewrite Hqs. apply in_or_app. right.
      now left. }
    rewrite Hqs, map_app in Hbest. cbn [map] in Hbest.
    rewrite last_last in Hbest.
    destruct (toBlob (canvas w) "image/jpeg" q) as [b |];
      cbn [fits] in Hq; [| discriminate].
    exists s', b, qs. repeat split; assumption.
  - destruct Hr as (_ & q & Hq & Hnull).
    specialize (Hfits q (Hin q Hq)). rewrite Hnull in Hfits. discriminate.
Qed.

(** As far as the budget goes, an encoder whose output grows with the
    quality is one for which every quality up to 1 fits once 1 does.  Under
    that reading the first pass is enough, in either arithmetic. *)
Lemma first_pass_suffices (file : Blob) (targetSizeKB : num) (image : Image) :
  decode file = Some image ->
  context2d = true ->
  let t := targetSizeKB * of_Z 1024 in
  (forall q, in_range q = true ->
             fits t (toBlob (full_canvas image) "image/jpeg" q) = true) ->
  exists b qs,
    compressImageToTarget file targetSizeKB start
    = (Returned (mkResult (Some b) (image_width image) (image_height image)),
       mkWorld (full_canvas image)
               (map (full_encoding (full_canvas image)) qs))
    /\ (of_Z (size b) <=? t) = true.
Proof.
  intros Hdecode Hctx t Hfits.
  rewrite compressImageToTarget_run, Hdecode, Hctx. cbv zeta. fold t.
  destruct (first_pass_tree_computed a) as (Hrange & _).
  cbv zeta in Hrange. rewrite forallb_forall in Hrange.
  destruct (first_pass_all_fit t (mkWorld (full_canvas image) []))
    as (s' & b & qs & -> & -> & Hsz).
  { intros q Hq. cbn [canvas]. apply Hfits, Hrange, Hq. }
  exists b, qs. split; [reflexivity | exact Hsz].
Qed.

Lemma scales_last :
  scales a = removelast (scales a) ++ [last_scale a] /\
  List.length (scales a) = 9%nat.
Proof. destruct a; split; reflexivity. Qed.

(** C9.  In either arithmetic the second pass requests at most 9 encodings,
    at an initial segment of its nine scales, which in exact arithmetic are
    0.9, 0.8, ..., 0.1; and when it is left without a result it has tried all
    nine, its count stands at 8, below the cap of 15, and its scale is below
    0.1: it was left by the [break]. *)
Theorem second_pass_at_most_nine (image : Image) (targetSizeBytes : num)
    (w : World) :
  let r := second_pass 15 image targetSizeBytes (initial_scaling image) w in
  exists scs rest,
    scales a = scs ++ rest /\
    (List.length scs <= 9)%nat /\
    encodings (snd r) = encodings w ++ map (scaled_encoding image) scs /\
    match fst r with
    | Returned (inr s') =>
        scs = scales a /\
        iterations2 s' = 8%nat /\
        (iterations2 s' <? 15)%nat = true /\
        (scale s' <? dec 1 10) = true
    | Returned (inl result) =>
        width result = scaled_width image (last scs (dec 9 10)) /\
        height result = scaled_height image (last scs (dec 9 10))
    | Thrown e => e = TypeError
    end.
Proof.
  intros r. unfold r.
  destruct second_pass_computed as (Hscales & (Hcount & Hbreak) & _).
  destruct scales_last as (_ & Hnine).
  destruct (second_pass_requests image targetSizeBytes 15
              (initial_scaling image) w)
    as (scs & rest & Hsc & Hw & Hr).
  cbn [scale iterations2 initial_scaling] in Hsc, Hr.
  rewrite Hscales in Hsc.
  exists scs, rest. split; [exact Hsc |].
  split; [rewrite Hsc, length_app in Hnine; lia |].
  split; [rewrite Hw; reflexivity |].
  destruct (fst (second_pass 15 image targetSizeBytes
                   (initial_scaling image) w)) as [[result | s'] | e].
  - destruct Hr as (sc & scs' & b & -> & _ & _ & ->).
    rewrite last_last. split; reflexivity.
  - destruct Hr as (-> & Hexit & _). rewrite app_nil_r in Hsc.
    assert (Hs : scale s' = fst (second_pass_exit 15 (dec 9 10) 0))
      by (rewrite <- Hexit; reflexivity).
    assert (Hi : iterations2 s' = snd (second_pass_exit 15 (dec 9 10) 0))
      by (rewrite <- Hexit; reflexivity).
    rewrite Hs, Hi, Hcount. repeat split; [now symmetry | exact Hbreak].
  - exact (proj1 Hr).
Qed.

(** When nothing fits in the first pass, it ends as it started, without a
    candidate. *)
Lemma first_pass_none_fits (t : num) (w : World) :
  (forall q, In q (nodes (first_pass_tree 10 (dec 1 100) (of_Z 1) 0)) ->
             too_large t (toBlob (canvas w) "image/jpeg" q) = true) ->
  exists s' qs,
    first_pass 10 t initial_search w
    = (Returned s',
       mkWorld (canvas w) (encodings w ++ map (full_encoding (canvas w)) qs))
    /\ bestBlob s' = None.
Proof.
  intros Hlarge.
  destruct (first_pass_requests t 10 initial_search w)
    as (qs & Hw & Hin & _ & _ & Hr).
  rewrite tree_from_initial in Hin.
  assert (Hnone : recorded (canvas w) t qs = [])
    by (apply recorded_none; intros q Hq; exact (Hlarge q (Hin q Hq))).
  destruct (first_pass 10 t initial_search w) as [[s' | e] w'];
    cbn [fst snd] in Hw, Hr; subst w'.
  - exists s', qs. split; [reflexivity |].
    destruct Hr as [Hbest _]. rewrite Hbest, Hnone. reflexivity.
  - destruct Hr as (_ & q & Hq & Hnull).
    specialize (Hlarge q (Hin q Hq)). rewrite Hnull in Hlarge. discriminate.
Qed.

(** The exhaustion fallback where the encoder answers.  In either
    arithmetic, when the image decodes, a context is had, and every encoding
    of the two passes comes back as a blob larger than the budget, the call
    returns, without error, the answer of one more request at quality 0.1,
    made on the canvas of the last attempt, with the dimensions of that
    attempt; nothing is asked of that answer. *)
Theorem exhaustion_fallback (file : Blob) (targetSizeKB : num) (image : Image) :
  decode file = Some image ->
  context2d = true ->
  let t := targetSizeKB * of_Z 1024 in
  (forall q, In q (nodes (first_pass_tree 10 (dec 1 100) (of_Z 1) 0)) ->
             too_large t (toBlob (full_canvas image) "image/jpeg" q) = true) ->
  (forall sc, In sc (scales a) ->
              too_large t (toBlob (scaled_canvas image sc) "image/jpeg"
                             (dec 5 10)) = true) ->
  let c := scaled_canvas image (last_scale a) in
  exists earlier,
    compressImageToTarget file targetSizeKB start
    = (Returned (mkResult (toBlob c "image/jpeg" (dec 1 10))
                          (scaled_width image (last_scale a))
                          (scaled_height image (last_scale a))),
       mkWorld c (earlier ++ [scaled_encoding image (last_scale a);
                              full_encoding c (dec 1 10)])).
Proof.
  intros Hdecode Hctx t Hfirst Hsecond c.
  rewrite compressImageToTarget_run, Hdecode, Hctx. cbv zeta. fold t.
  destruct (first_pass_none_fits t (mkWorld (full_canvas image) []) Hfirst)
    as (s1 & qs & -> & ->).
  cbn [canvas encodings app].
  destruct second_pass_computed as (Hscales & _).
  destruct scales_last as (Hlast & _).
  destruct (second_pass_requests image t 15 (initial_scaling image)
              (mkWorld (full_canvas image)
                 (map (full_encoding (full_canvas image)) qs)))
    as (scs & rest & Hsc & Hw & Hr).
  cbn [scale iterations2 initial_scaling canvas encodings cur_width cur_height]
    in Hsc, Hw, Hr.
  rewrite Hscales in Hsc.
  destruct (second_pass 15 image t (initial_scaling image) _)
    as [[[result | s2] | e] w2]; cbn [fst snd] in Hw, Hr; subst w2.
  - destruct Hr as (sc & scs' & b & -> & Hb & Hsz & _).
    assert (Hin : In sc (scales a))
      by (rewrite Hsc; apply in_or_app; left; apply in_or_app; right;
          now left).
    specialize (Hsecond sc Hin). rewrite Hb in Hsecond.
    cbn [too_large] in Hsecond. rewrite Hsz in Hsecond. discriminate.
  - destruct Hr as (-> & _ & Hcw & Hch). rewrite app_nil_r in Hsc. subst scs.
    rewrite Hlast in Hcw, Hch |- *.
    rewrite map_app in Hcw, Hch. cbn [map] in Hcw, Hch.
    rewrite last_last in Hcw, Hch.
    rewrite !map_app. cbn [map]. rewrite last_last.
    exists (map (full_encoding (full_canvas image)) qs
            ++ map (scaled_encoding image) (removelast (scales a))).
    unfold requested. cbn [canvas encodings]. fold c.
    rewrite Hcw, Hch, <- !app_assoc. reflexivity.
  - destruct Hr as (_ & sc & scs' & -> & Hnull).
    assert (Hin : In sc (scales a))
      by (rewrite Hsc; apply in_or_app; left; apply in_or_app; right;
          now left).
    specialize (Hsecond sc Hin). rewrite Hnull in Hsecond. discriminate.
Qed.

End BothArithmetics.

(** The fallback at work: an image of 1000 by 800 against a budget of 50 KB,
    with an encoder that never goes below a million bytes, in binary64. *)
Lemma exhaustion_fallback_witness :
  let H := stub_host Binary64 picture_1000_800 true heavy_encoder in
  exists earlier,
    @compressImageToTarget Binary64_Number H 0%Z 50%float start
    = (Returned (mkResult (Some 1000000%Z) 100 80),
       mkWorld (@scaled_canvas Binary64_Number H picture_1000_800
                  0.10000000000000014%float)
         (earlier ++
          [@scaled_encoding Binary64_Number H picture_1000_800
             0.10000000000000014%float;
           @full_encoding Binary64_Number H
             (@scaled_canvas Binary64_Number H picture_1000_800
                0.10000000000000014%float) 0.1%float])).
Proof.
  intros H.
  apply (@exhaustion_fallback Binary64 H 0%Z 50%float picture_1000_800).
  - reflexivity.
  - reflexivity.
  - intros q Hq. vm_compute in Hq.
    repeat (destruct Hq as [<- | Hq]; [vm_compute; reflexivity |]).
    destruct Hq.
  - intros sc Hsc. vm_compute in Hsc.
    repeat (destruct Hsc as [<- | Hsc]; [vm_compute; reflexivity |]).
    destruct Hsc.
Defined.

(** C1 fails where the encoder has nothing to answer.  An image of 9 by
    30000 against a budget of 1 KB: no quality of the first pass and no scale
    of the second yields an encoding within the budget, and at the last
    scale the canvas is 0 wide, [toBlob] answers [null], and the call is
    rejected with the [TypeError] of reading its size, after 13 requests: the
    fallback at quality 0.1 is never reached.  In either arithmetic. *)
Theorem exhaustion_throws_on_empty_canvas (a : arithmetic) :
  let N := number_of a in
  let H := stub_host a picture_9_30000 true pixelless_encoder in
  let t := (of_Z 1 * of_Z 1024)%num in
  let run := compressImageToTarget 0%Z (of_Z 1) start in
  forallb (fun q =>
             negb (fits t (toBlob (full_canvas picture_9_30000)
                             "image/jpeg" q)))
          (nodes (first_pass_tree 10 (dec 1 100) (of_Z 1) 0)) = true /\
  forallb (fun sc =>
             negb (fits t (toBlob (scaled_canvas picture_9_30000 sc)
                             "image/jpeg" (dec 5 10))))
          (scales a) = true /\
  fst run = Thrown TypeError /\
  List.length (encodings (snd run)) = 13%nat /\
  canvas_width (canvas (snd run)) = 0%Z /\
  toBlob (canvas (snd run)) "image/jpeg" (dec 5 10) = None.
Proof.
  destruct a; cbv zeta; repeat split; reflexivity.
Qed.

(** ** The first pass against its specification *)

Section Refinement.
Context {N : Number} {H : Host}.
Variable encode : num -> Blob.
Local Open Scope num_scope.

(** With an encoder that always answers, a run of the first pass is the
    bisection of the specification, from any state that leaves it enough of
    its 10 iterations. *)
Lemma first_pass_spec_bisection (t : num) (fuel : nat) :
  forall (s : Search) (w : World),
  (fuel + iterations s <= 10)%nat ->
  (forall q, toBlob (canvas w) "image/jpeg" q = Some (encode q)) ->
  exists s',
    first_pass fuel t s w
    = (Returned s',
       mkWorld (canvas w)
         (encodings w
          ++ map (full_encoding (canvas w))
               (fst (spec_bisection encode size t fuel (minQ s) (maxQ s)
                       (bestBlob s)))))
    /\ bestBlob s'
       = snd (spec_bisection encode size t fuel (minQ s) (maxQ s) (bestBlob s)).
Proof.
  induction fuel as [| fuel IH]; intros s w Hfuel Hencode.
  - exists s. cbn. rewrite app_nil_r. destruct w. split; reflexivity.
  - rewrite first_pass_S. cbn [spec_bisection]. unfold guard.
    assert (Hit : (iterations s <? 10)%nat = true)
      by (apply Nat.ltb_lt; lia).
    rewrite Hit, andb_true_r.
    destruct (minQ s <=? maxQ s).
    2:{ exists s. cbn. rewrite app_nil_r. destruct w. split; reflexivity. }
    cbv zeta. fold (midQ s). rewrite Hencode.
    destruct (of_Z (size (encode (midQ s))) <=? t).
    + destruct (IH (narrowed_up s (Some (encode (midQ s))))
                  (requested w (full_encoding (canvas w) (midQ s))))
        as (s' & Hrun & Hbest);
        [cbn [iterations narrowed_up]; lia | exact Hencode |].
      cbn [minQ maxQ bestBlob narrowed_up] in Hrun, Hbest.
      destruct (spec_bisection encode size t fuel _ (maxQ s) _)
        as [encoded found].
      exists s'. split; [| exact Hbest].
      rewrite Hrun. cbn [fst]. f_equal. apply requested_more. reflexivity.
    + destruct (IH (narrowed_down s)
                  (requested w (full_encoding (canvas w) (midQ s))))
        as (s' & Hrun & Hbest);
        [cbn [iterations narrowed_down]; lia | exact Hencode |].
      cbn [minQ maxQ bestBlob narrowed_down] in Hrun, Hbest.
      destruct (spec_bisection encode size t fuel (minQ s) _ _)
        as [encoded found].
      exists s'. split; [| exact Hbest].
      rewrite Hrun. cbn [fst]. f_equal. apply requested_more. reflexivity.
Qed.

(** C2.  With an image that decodes, a context, and an encoder that answers
    [encode q] at every quality [q] on the full-size canvas, a call starts
    with exactly the encodings of the specification's first phase, in its
    order; and when that phase has a candidate, the call returns it at the
    dimensions of the image, having requested nothing else. *)
Theorem first_pass_refines_spec (file : Blob) (targetSizeKB : num)
    (image : Image) :
  decode file = Some image ->
  context2d = true ->
  (forall q, toBlob (full_canvas image) "image/jpeg" q = Some (encode q)) ->
  let phase1 := spec_phase1 encode size (targetSizeKB * of_Z 1024) in
  let run := compressImageToTarget file targetSizeKB start in
  match snd phase1 with
  | Some artifact =>
      run = (Returned (mkResult (Some artifact) (image_width image)
                                (image_height image)),
             mkWorld (full_canvas image)
                     (map (full_encoding (full_canvas image)) (fst phase1)))
  | None =>
      exists rest,
        encodings (snd run)
        = map (full_encoding (full_canvas image)) (fst phase1) ++ rest
  end.
Proof.
  intros Hdecode Hctx Hencode phase1 run. unfold run.
  rewrite compressImageToTarget_run, Hdecode, Hctx. cbv zeta.
  set (t := targetSizeKB * of_Z 1024).
  destruct (first_pass_spec_bisection t 10 initial_search
              (mkWorld (full_canvas image) []))
    as (s' & Hrun & Hbest); [cbn; lia | exact Hencode |].
  cbn [minQ maxQ bestBlob initial_search canvas encodings app] in Hrun, Hbest.
  subst phase1. unfold spec_phase1. fold t.
  destruct (spec_bisection encode size t 10 (dec 1 100) (of_Z 1) None)
    as [encoded found].
  cbn [fst snd] in Hrun, Hbest |- *.
  rewrite Hrun, Hbest.
  destruct found as [artifact |]; [reflexivity |].
  destruct (second_pass_requests image t 15 (initial_scaling image)
              (mkWorld (full_canvas image)
                 (map (full_encoding (full_canvas image)) encoded)))
    as (scs & _ & _ & Hw & _).
  cbn [canvas encodings] in Hw.
  destruct (second_pass 15 image t (initial_scaling image) _)
    as [[[result | s2] | e] w2]; cbn [snd] in Hw |- *; subst w2.
  - eexists. reflexivity.
  - eexists. unfold requested. cbn [encodings]. rewrite <- app_assoc.
    reflexivity.
  - eexists. reflexivity.
Qed.

End Refinement.

Lemma first_pass_refines_spec_witness :
  let H := stub_host Exact picture_1000_800 true area_encoder in
  @compressImageToTarget Exact_Number H 0%Z (inject_Z 500) start
  = (Returned (mkResult (Some 458500%Z) 1000 800),
     mkWorld (@full_canvas Exact_Number H picture_1000_800)
       (map (@full_encoding Exact_Number H
               (@full_canvas Exact_Number H picture_1000_800))
            [101 # 200; 311 # 400; 513 # 800; 917 # 1600]%Q)).
Proof.
  intros H.
  exact (@first_pass_refines_spec Exact_Number H
           (fun q => Qfloor (inject_Z (1000 * 800) * q))
           0%Z (inject_Z 500) picture_1000_800
           eq_refl eq_refl (fun q => eq_refl)).
Defined.

(** ** A budget that full quality meets *)

(** The order of the doubles is transitive, NaN apart, which is below
    nothing; so is the order of either arithmetic. *)
Lemma SFleb_trans (x y z : spec_float) :
  SFleb x y = true -> SFleb y z = true -> SFleb x z = true.
Proof.
  unfold SFleb, SFcompare.
  destruct x as [sx | sx | | sx mx ex], y as [sy | sy | | sy my ey],
           z as [sz | sz | | sz mz ez];
    try destruct sx; try destruct sy; try destruct sz;
    try reflexivity; try discriminate;
    change (Pos.compare_cont Eq) with Pos.compare;
    repeat match goal with
           | |- context [(?u ?= ?v)%Z] => destruct (Z.compare_spec u v)
           end;
    try reflexivity; try discriminate; try lia;
    subst;
    repeat match goal with
           | |- context [(?u ?= ?v)%positive] =>
               destruct (Pos.compare_spec u v)
           end;
    cbn; try reflexivity; try discriminate; try lia.
Qed.

Lemma leb_trans (a : arithmetic) (x y z : @num (number_of a)) :
  @leb (number_of a) x y = true ->
  @leb (number_of a) y z = true ->
  @leb (number_of a) x z = true.
Proof.
  destruct a; cbn [number_of leb Exact_Number Binary64_Number].
  - rewrite !Qle_bool_iff. apply Qle_trans.
  - rewrite !leb_spec. apply SFleb_trans.
Qed.

Lemma unit_interval (a : arithmetic) :
  @leb (number_of a) (@of_Z (number_of a) 0) (@dec (number_of a) 1 100) = true /\
  @leb (number_of a) (@of_Z (number_of a) 1) (@of_Z (number_of a) 1) = true.
Proof. destruct a; vm_compute; split; reflexivity. Qed.

Section Budget.
Context (a : arithmetic).
#[local] Hint Extern 0 Number => exact (number_of a) : typeclass_instances.
Context {H : Host}.
Local Open Scope num_scope.

(** C3.  In either arithmetic, when the image decodes, a context is had, the
    encoding of the full-size canvas at quality 1 is within the budget, and
    over the qualities from 0 to 1 the size of an encoding does not decrease
    with the quality (the sizes compared as the numbers the program holds),
    the call returns a candidate of its first pass: an artifact within the
    budget, at the dimensions of the image, every request having been made on
    the full-size canvas, which the call leaves as it drew it.  Nothing is
    asked of the encoder outside the qualities from 0 to 1. *)
Theorem full_quality_fits (file : Blob) (targetSizeKB : num) (image : Image)
    (b1 : Blob) :
  decode file = Some image ->
  context2d = true ->
  let t := targetSizeKB * of_Z 1024 in
  toBlob (full_canvas image) "image/jpeg" (of_Z 1) = Some b1 ->
  (of_Z (size b1) <=? t) = true ->
  (forall q1 q2 b2,
     (of_Z 0 <=? q1) = true ->
     (q1 <=? q2) = true ->
     (q2 <=? of_Z 1) = true ->
     toBlob (full_canvas image) "image/jpeg" q2 = Some b2 ->
     exists b, toBlob (full_canvas image) "image/jpeg" q1 = Some b /\
               (of_Z (size b) <=? of_Z (size b2)) = true) ->
  exists b qs,
    compressImageToTarget file targetSizeKB start
    = (Returned (mkResult (Some b) (image_width image) (image_height image)),
       mkWorld (full_canvas image)
               (map (full_encoding (full_canvas image)) qs))
    /\ (of_Z (size b) <=? t) = true.
Proof.
  intros Hdecode Hctx t Hb1 Hsz1 Hmono.
  apply (first_pass_suffices a file targetSizeKB image Hdecode Hctx).
  intros q Hq. fold t.
  destruct (unit_interval a) as [Hzero Hone].
  apply andb_true_iff in Hq as [Hq0 Hq1].
  destruct (Hmono q (of_Z 1) b1 (leb_trans a _ _ _ Hzero Hq0) Hq1 Hone Hb1)
    as (b & -> & Hle).
  cbn [fits]. exact (leb_trans a _ _ _ Hle Hsz1).
Qed.

End Budget.

Lemma full_quality_fits_witness :
  let H := stub_host Exact picture_1000_800 true area_encoder in
  exists b qs,
    @compressImageToTarget Exact_Number H 0%Z (inject_Z 1000) start
    = (Returned (mkResult (Some b) 1000 800),
       mkWorld (@full_canvas Exact_Number H picture_1000_800)
         (map (@full_encoding Exact_Number H
                 (@full_canvas Exact_Number H picture_1000_800)) qs))
    /\ Qle_bool (inject_Z b) (inject_Z 1000 * inject_Z 1024) = true.
Proof.
  intros H.
  apply (@full_quality_fits Exact H 0%Z (inject_Z 1000) picture_1000_800
           800000%Z).
  - reflexivity.
  - reflexivity.
  - reflexivity.
  - reflexivity.
  - intros q1 q2 b2 _ Hq _ Hb2. exists (Qfloor (inject_Z (1000 * 800) * q1)).
    split; [reflexivity |].
    change (Some (Qfloor (inject_Z (1000 * 800) * q2)) = Some b2) in Hb2.
    injection Hb2 as <-.
    change (Qle_bool (inject_Z (Qfloor (inject_Z (1000 * 800) * q1)))
              (inject_Z (Qfloor (inject_Z (1000 * 800) * q2))) = true).
    apply Qle_bool_iff. rewrite <- Zle_Qle.
    apply Qfloor_resp_le.
    change (Qle_bool q1 q2 = true) in Hq. apply Qle_bool_iff in Hq.
    apply Qmult_le_l; [reflexivity | exact Hq].
Defined.

(** The same call in binary64: the first pass returns its last candidate,
    of 785500 bytes, at the dimensions of the image, after four requests. *)
Example full_quality_fits_binary64 :
  let H := stub_host Binary64 picture_1000_800 true area_encoder in
  let run := @compressImageToTarget Binary64_Number H 0%Z 1000%float start in
  fst run = Returned (mkResult (Some 785500%Z) 1000 800) /\
  List.length (encodings (snd run)) = 4%nat /\
  canvas (snd run) = @full_canvas Binary64_Number H picture_1000_800.
Proof. cbv zeta. repeat split; reflexivity. Qed.

(** ** An encoding that yields nothing *)

(** C5 fails at the last request.  With an encoder that answers a million
    bytes at every quality but one tenth, where it answers [null], a call for
    50 KB on a 1000 by 800 image runs both passes to their end, requests the
    encoding at 0.1, and returns its [null] as the artifact, at 100 by 80:
    nothing is thrown.  In either arithmetic. *)
Theorem null_fallback_is_returned (a : arithmetic) :
  let N := number_of a in
  let H := stub_host a picture_1000_800 true null_at_tenth_encoder in
  let run := compressImageToTarget 0%Z (of_Z 50) start in
  fst run = Returned (mkResult None 100 80) /\
  List.length (encodings (snd run)) = 14%nat /\
  match last (encodings (snd run)) (mkEncoding (mkCanvas 0 0 []) "" (of_Z 0))
  with
  | mkEncoding c type q =>
      q = dec 1 10 /\ toBlob c type q = None
  end.
Proof.
  destruct a; cbv zeta; (split; [reflexivity | split; [reflexivity |]]);
    lazy; split; reflexivity.
Qed.

(** In the two passes the same answer does end the call, on the [TypeError]
    of reading the size of [null]: at the first request of the first pass,
    and at the first request of the second. *)
Example null_in_first_pass_throws (a : arithmetic) :
  let N := number_of a in
  let H := stub_host a picture_1000_800 true null_encoder in
  let run := compressImageToTarget 0%Z (of_Z 50) start in
  fst run = Thrown TypeError /\ List.length (encodings (snd run)) = 1%nat.
Proof. destruct a; cbv zeta; split; reflexivity. Qed.

Example null_in_second_pass_throws (a : arithmetic) :
  let N := number_of a in
  let H := stub_host a picture_1000_800 true null_at_half_encoder in
  let run := compressImageToTarget 0%Z (of_Z 50) start in
  fst run = Thrown TypeError /\ List.length (encodings (snd run)) = 5%nat.
Proof. destruct a; cbv zeta; split; reflexivity. Qed.

(** * Further properties of the compressor *)

Section Answers.
Context {N : Number} {H : Host}.
Local Open Scope num_scope.

(** A record determines the qualities requested. *)
Lemma requests_unique (c : Canvas num Image) (l : list Encoding)
    (qs qs' : list num) :
  l ++ map (full_encoding c) qs = l ++ map (full_encoding c) qs' -> qs = qs'.
Proof.
  intros Heq. apply app_inv_head in Heq.
  revert qs' Heq. induction qs as [| q qs IH]; intros [| q' qs'] Heq;
    try discriminate; [reflexivity |].
  cbn [map] in Heq. injection Heq as Hq Hqs. f_equal; [exact Hq | now apply IH].
Qed.

(** What a run of the first pass that returns has gone through: every
    request was answered, each iteration made one, and the pass was left in
    one of the states of [first_pass_exits]. *)
Lemma first_pass_answers (t : num) (fuel : nat) (s : Search) (w : World) :
  exists qs,
    snd (first_pass fuel t s w)
    = mkWorld (canvas w) (encodings w ++ map (full_encoding (canvas w)) qs) /\
    match fst (first_pass fuel t s w) with
    | Returned s' =>
        Forall (fun q => toBlob (canvas w) "image/jpeg" q <> None) qs /\
        iterations s' = (iterations s + List.length qs)%nat /\
        In (minQ s', maxQ s', iterations s')
           (first_pass_exits fuel (minQ s) (maxQ s) (iterations s))
    | Thrown _ =>
        exists qs' q,
          qs = qs' ++ [q] /\
          Forall (fun q => toBlob (canvas w) "image/jpeg" q <> None) qs' /\
          toBlob (canvas w) "image/jpeg" q = None
    end.
Proof.
  revert fuel s w.
  apply (first_pass_course t (fun fuel s w r =>
    exists qs,
      snd r = mkWorld (canvas w)
                (encodings w ++ map (full_encoding (canvas w)) qs) /\
      match fst r with
      | Returned s' =>
          Forall (fun q => toBlob (canvas w) "image/jpeg" q <> None) qs /\
          iterations s' = (iterations s + List.length qs)%nat /\
          In (minQ s', maxQ s', iterations s')
             (first_pass_exits fuel (minQ s) (maxQ s) (iterations s))
      | Thrown _ =>
          exists qs' q,
            qs = qs' ++ [q] /\
            Forall (fun q => toBlob (canvas w) "image/jpeg" q <> None) qs' /\
            toBlob (canvas w) "image/jpeg" q = None
      end)).
  - intros s w. exists []. cbn [fst snd map List.length first_pass_exits].
    rewrite app_nil_r. destruct w.
    repeat split; [constructor | lia | now left].
  - intros fuel s w Hg. exists [].
    cbn [fst snd map List.length first_pass_exits].
    unfold guard in Hg. rewrite Hg, app_nil_r. destruct w.
    repeat split; [constructor | lia | now left].
  - intros fuel s w Hg Hb. exists [midQ s]. cbn [fst snd].
    split; [reflexivity |].
    exists [], (midQ s). repeat split; [constructor | exact Hb].
  - intros fuel s w b Hg Hb Hsz s' w' (qs & Hw & Hr).
    exists (midQ s :: qs).
    split; [rewrite Hw; apply requested_more; reflexivity |].
    destruct (fst (first_pass fuel t s' w')) as [s'' | e].
    2:{ destruct Hr as (qs' & q & -> & Hall & Hnull).
        exists (midQ s :: qs'), q. repeat split; [| exact Hnull].
        constructor; [rewrite Hb; discriminate | exact Hall]. }
    destruct Hr as (Hall & Hit & Hexit).
    cbn [first_pass_exits List.length]. unfold guard in Hg. rewrite Hg.
    cbn [iterations minQ maxQ narrowed_up s'] in Hit, Hexit.
    repeat split.
    + constructor; [rewrite Hb; discriminate | exact Hall].
    + lia.
    + apply in_or_app. left. exact Hexit.
  - intros fuel s w b Hg Hb Hsz s' w' (qs & Hw & Hr).
    exists (midQ s :: qs).
    split; [rewrite Hw; apply requested_more; reflexivity |].
    destruct (fst (first_pass fuel t s' w')) as [s'' | e].
    2:{ destruct Hr as (qs' & q & -> & Hall & Hnull).
        exists (midQ s :: qs'), q. repeat split; [| exact Hnull].
        constructor; [rewrite Hb; discriminate | exact Hall]. }
    destruct Hr as (Hall & Hit & Hexit).
    cbn [first_pass_exits List.length]. unfold guard in Hg. rewrite Hg.
    cbn [iterations minQ maxQ narrowed_down s'] in Hit, Hexit.
    repeat split.
    + constructor; [rewrite Hb; discriminate | exact Hall].
    + lia.
    + apply in_or_app. right. exact Hexit.
Qed.

Lemma last_map_some {A B : Type} (f : A -> option B) (l : list A) (b : B) :
  last (map f l) None = Some b ->
  exists l' x, l = l' ++ [x] /\ f x = Some b.
Proof.
  destruct l as [| a l] using rev_ind; [discriminate |].
  rewrite map_app. cbn [map]. rewrite last_last. intros Hx.
  exists l, a. split; [reflexivity | exact Hx].
Qed.

(** The candidate a run of the first pass ends on, from the start: a blob
    within the budget that one of its requests was answered with; or none,
    and then every request was answered with a blob above the budget. *)
Lemma first_pass_candidate (t : num) (w : World) :
  exists qs,
    snd (first_pass 10 t initial_search w)
    = mkWorld (canvas w) (encodings w ++ map (full_encoding (canvas w)) qs) /\
    incl qs (nodes (first_pass_tree 10 (dec 1 100) (of_Z 1) 0)) /\
    match fst (first_pass 10 t initial_search w) with
    | Returned s' =>
        Forall (fun q => toBlob (canvas w) "image/jpeg" q <> None) qs /\
        match bestBlob s' with
        | Some b =>
            exists q, In q qs /\
                      toBlob (canvas w) "image/jpeg" q = Some b /\
                      (of_Z (size b) <=? t) = true
        | None =>
            Forall (fun q => too_large t (toBlob (canvas w) "image/jpeg" q)
                             = true) qs
        end
    | Thrown e =>
        e = TypeError /\
        exists qs' q,
          qs = qs' ++ [q] /\
          Forall (fun q => toBlob (canvas w) "image/jpeg" q <> None) qs' /\
          toBlob (canvas w) "image/jpeg" q = None
    end.
Proof.
  destruct (first_pass_requests t 10 initial_search w)
    as (qs & Hw & Hin & _ & _ & Hr).
  destruct (first_pass_answers t 10 initial_search w) as (qs' & Hw' & Hr').
  rewrite Hw in Hw'. injection Hw' as Hqs.
  apply requests_unique in Hqs. subst qs'.
  rewrite tree_from_initial in Hin.
  exists qs. split; [exact Hw |]. split; [exact Hin |].
  destruct (fst (first_pass 10 t initial_search w)) as [s' | e].
  - destruct Hr as [Hbest _]. destruct Hr' as (Hall & _).
    split; [exact Hall |].
    cbn [bestBlob initial_search] in Hbest. rewrite Hbest.
    destruct (last (map (toBlob (canvas w) "image/jpeg")
                      (recorded (canvas w) t qs)) None) as [b |] eqn:Hlast.
    + apply last_map_some in Hlast as (l' & q & Hrec & Hb).
      assert (Hq : In q (recorded (canvas w) t qs))
        by (rewrite Hrec; apply in_or_app; right; now left).
      apply filter_In in Hq as [Hq Hfit].
      exists q. rewrite Hb in Hfit. cbn [fits] in Hfit.
      repeat split; assumption.
    + assert (Hnone : recorded (canvas w) t qs = []).
      { destruct (recorded (canvas w) t qs) as [| q l] eqn:Hrec
          using rev_ind; [reflexivity |].
        rewrite map_app in Hlast. cbn [map] in Hlast.
        rewrite last_last in Hlast.
        assert (Hq : In q (recorded (canvas w) t qs))
          by (rewrite Hrec; apply in_or_app; right; now left).
        apply filter_In in Hq as [_ Hfit]. rewrite Hlast in Hfit.
        discriminate. }
      apply Forall_forall. intros q Hq.
      rewrite Forall_forall in Hall. specialize (Hall q Hq).
      destruct (toBlob (canvas w) "image/jpeg" q) as [b |] eqn:Hb;
        [| contradiction].
      cbn [too_large].
      destruct (of_Z (size b) <=? t) eqn:Hsz; [| reflexivity].
      assert (Hrec : In q (recorded (canvas w) t qs)).
      { apply filter_In. split; [exact Hq |]. rewrite Hb. exact Hsz. }
      rewrite Hnone in Hrec. destruct Hrec.
  - split; [exact (proj1 Hr) | exact Hr'].
Qed.

(** What a run of the second pass has gone through: its requests are at an
    initial segment of its scales; all but the last were answered by a blob
    above the budget; and the last one decided how the pass ended. *)
Lemma second_pass_answers (image : Image) (t : num) (fuel : nat) :
  forall (s : Scaling) (w : World),
  exists scs rest,
    second_pass_scales fuel (scale s) (iterations2 s) = scs ++ rest /\
    snd (second_pass fuel image t s w)
    = mkWorld (last (map (scaled_canvas image) scs) (canvas w))
              (encodings w ++ map (scaled_encoding image) scs) /\
    match fst (second_pass fuel image t s w) with
    | Returned (inr s') =>
        rest = [] /\
        Forall (fun sc => too_large t (toBlob (scaled_canvas image sc)
                                         "image/jpeg" (dec 5 10)) = true) scs /\
        cur_width s' = last (map (scaled_width image) scs) (cur_width s) /\
        cur_height s' = last (map (scaled_height image) scs) (cur_height s)
    | Returned (inl result) =>
        exists scs' sc b,
          scs = scs' ++ [sc] /\
          Forall (fun sc => too_large t (toBlob (scaled_canvas image sc)
                                           "image/jpeg" (dec 5 10)) = true)
            scs' /\
          toBlob (scaled_canvas image sc) "image/jpeg" (dec 5 10) = Some b /\
          (of_Z (size b) <=? t) = true /\
          result = mkResult (Some b) (scaled_width image sc)
                            (scaled_height image sc)
    | Thrown e =>
        e = TypeError /\
        exists scs' sc,
          scs = scs' ++ [sc] /\
          Forall (fun sc => too_large t (toBlob (scaled_canvas image sc)
                                           "image/jpeg" (dec 5 10)) = true)
            scs' /\
          toBlob (scaled_canvas image sc) "image/jpeg" (dec 5 10) = None
    end.
Proof.
  induction fuel as [| fuel IH]; intros s w.
  - exists [], []. cbn. rewrite app_nil_r. destruct w. repeat split.
    constructor.
  - rewrite second_pass_S. cbn [second_pass_scales].
    destruct (iterations2 s <? 15)%nat.
    2:{ exists [], []. cbn. rewrite app_nil_r. destruct w. repeat split.
        constructor. }
    cbv zeta. fold (next_scale s).
    destruct (toBlob (scaled_canvas image (scale s)) "image/jpeg" (dec 5 10))
      as [b |] eqn:Hb.
    2:{ eexists [scale s], _. cbn [fst snd map last app].
        split; [reflexivity |]. split; [reflexivity |].
        split; [reflexivity |].
        exists [], (scale s). repeat split; [constructor | exact Hb]. }
    destruct (of_Z (size b) <=? t) eqn:Hsz.
    { eexists [scale s], _. cbn [fst snd map last app].
      split; [reflexivity |]. split; [reflexivity |].
      exists [], (scale s), b. repeat split; [constructor | exact Hb | exact Hsz]. }
    assert (Hlarge : too_large t (toBlob (scaled_canvas image (scale s))
                                    "image/jpeg" (dec 5 10)) = true)
      by (rewrite Hb; cbn [too_large]; rewrite Hsz; reflexivity).
    destruct (next_scale s <? dec 1 10) eqn:Hbreak.
    { exists [scale s], []. cbn [fst snd map last app].
      repeat split. constructor; [exact Hlarge | constructor]. }
    destruct (IH (stepped image s (S (iterations2 s))) (rescaled image s w))
      as (scs & rest & Hsc & Hw & Hr).
    exists (scale s :: scs), rest.
    cbn [scale iterations2 stepped cur_width cur_height] in Hsc, Hr.
    split; [cbn [app]; now rewrite Hsc |].
    split.
    { rewrite Hw. unfold rescaled. cbn [canvas encodings map].
      rewrite last_cons, <- app_assoc. reflexivity. }
    destruct (fst (second_pass fuel image t
                     (stepped image s (S (iterations2 s)))
                     (rescaled image s w))) as [[result | s'] | e].
    + destruct Hr as (scs' & sc & b' & -> & Hall & Hb' & Hsz' & ->).
      exists (scale s :: scs'), sc, b'.
      repeat split; try assumption. constructor; assumption.
    + destruct Hr as (-> & Hall & Hcw & Hch).
      cbn [map]. rewrite !last_cons.
      repeat split; try assumption. constructor; assumption.
    + destruct Hr as (-> & scs' & sc & -> & Hall & Hb').
      split; [reflexivity |].
      exists (scale s :: scs'), sc.
      repeat split; try assumption. constructor; assumption.
Qed.

(** The course of a whole call once the image is decoded and a context is
    had, in terms of the qualities [qs] of its first pass and of the scales
    [scs] of its second. *)
Lemma compressImageToTarget_outcome (file : Blob) (targetSizeKB : num)
    (image : Image) :
  decode file = Some image ->
  context2d = true ->
  let t := targetSizeKB * of_Z 1024 in
  let full := full_canvas image in
  let large_q := fun q => too_large t (toBlob full "image/jpeg" q) = true in
  let large_sc := fun sc =>
    too_large t (toBlob (scaled_canvas image sc) "image/jpeg" (dec 5 10))
    = true in
  exists qs scs rest,
    incl qs (nodes (first_pass_tree 10 (dec 1 100) (of_Z 1) 0)) /\
    second_pass_scales 15 (dec 9 10) 0 = scs ++ rest /\
    match compressImageToTarget file targetSizeKB start with
    | (Thrown e, w) =>
        e = TypeError /\
        ((scs = [] /\
          w = mkWorld full (map (full_encoding full) qs) /\
          exists qs' q,
            qs = qs' ++ [q] /\
            Forall (fun q => toBlob full "image/jpeg" q <> None) qs' /\
            toBlob full "image/jpeg" q = None)
         \/
         (Forall large_q qs /\
          exists scs' sc,
            scs = scs' ++ [sc] /\
            w = mkWorld (scaled_canvas image sc)
                  (map (full_encoding full) qs
                   ++ map (scaled_encoding image) scs) /\
            Forall large_sc scs' /\
            toBlob (scaled_canvas image sc) "image/jpeg" (dec 5 10) = None))
    | (Returned r, w) =>
        (scs = [] /\
         w = mkWorld full (map (full_encoding full) qs) /\
         Forall (fun q => toBlob full "image/jpeg" q <> None) qs /\
         exists q b,
           In q qs /\
           toBlob full "image/jpeg" q = Some b /\
           (of_Z (size b) <=? t) = true /\
           r = mkResult (Some b) (image_width image) (image_height image))
        \/
        (Forall large_q qs /\
         exists scs' sc b,
           scs = scs' ++ [sc] /\
           w = mkWorld (scaled_canvas image sc)
                 (map (full_encoding full) qs
                  ++ map (scaled_encoding image) scs) /\
           Forall large_sc scs' /\
           toBlob (scaled_canvas image sc) "image/jpeg" (dec 5 10) = Some b /\
           (of_Z (size b) <=? t) = true /\
           r = mkResult (Some b) (scaled_width image sc)
                        (scaled_height image sc))
        \/
        (Forall large_q qs /\
         rest = [] /\
         Forall large_sc scs /\
         let c := last (map (scaled_canvas image) scs) full in
         w = mkWorld c
               (map (full_encoding full) qs
                ++ map (scaled_encoding image) scs
                ++ [full_encoding c (dec 1 10)]) /\
         r = mkResult (toBlob c "image/jpeg" (dec 1 10))
               (last (map (scaled_width image) scs) (image_width image))
               (last (map (scaled_height image) scs) (image_height image)))
    end.
Proof.
  intros Hdecode Hctx t full large_q large_sc.
  rewrite compressImageToTarget_run, Hdecode, Hctx. cbv zeta. fold t.
  fold full.
  destruct (first_pass_candidate t (mkWorld full [])) as (qs & Hw & Hin & Hr).
  cbn [canvas encodings app] in Hw, Hr.
  destruct (first_pass 10 t initial_search (mkWorld full []))
    as [[s1 | e] w1]; cbn [fst snd] in Hw, Hr; subst w1.
  2:{ exists qs, [], (second_pass_scales 15 (dec 9 10) 0).
      destruct Hr as (-> & Hnull).
      repeat split; [exact Hin |]. left. repeat split. exact Hnull. }
  destruct Hr as (Hall & Hbest).
  destruct (bestBlob s1) as [b |].
  { exists qs, [], (second_pass_scales 15 (dec 9 10) 0).
    destruct Hbest as (q & Hq & Hb & Hsz).
    split; [exact Hin |]. split; [reflexivity |]. left.
    repeat split; [exact Hall |]. exists q, b. repeat split; assumption. }
  destruct (second_pass_answers image t 15 (initial_scaling image)
              (mkWorld full (map (full_encoding full) qs)))
    as (scs & rest & Hsc & Hw2 & Hr2).
  cbn [scale iterations2 initial_scaling canvas encodings cur_width cur_height]
    in Hsc, Hw2, Hr2.
  exists qs, scs, rest. split; [exact Hin |]. split; [exact Hsc |].
  destruct (second_pass 15 image t (initial_scaling image) _)
    as [[[result | s2] | e] w2]; cbn [fst snd] in Hw2, Hr2; subst w2.
  - right. left. split; [exact Hbest |].
    destruct Hr2 as (scs' & sc & b & -> & Hlarge & Hb & Hsz & ->).
    exists scs', sc, b. rewrite map_app. cbn [map]. rewrite last_last.
    rewrite map_app. repeat split; assumption.
  - right. right. destruct Hr2 as (-> & Hlarge & Hcw & Hch).
    split; [exact Hbest |]. split; [reflexivity |]. split; [exact Hlarge |].
    cbv zeta. unfold requested. cbn [canvas encodings].
    rewrite Hcw, Hch, <- app_assoc. split; reflexivity.
  - destruct Hr2 as (-> & scs' & sc & -> & Hlarge & Hnull).
    split; [reflexivity |]. right. split; [exact Hbest |].
    exists scs', sc. rewrite map_app. cbn [map]. rewrite last_last.
    rewrite map_app. repeat split; assumption.
Qed.

End Answers.

Section Contract.
Context {N : Number} {H : Host}.
Local Open Scope num_scope.




Lemma over_budget_full (t : num) (c : Canvas num Image) (qs : list num) :
  Forall (fun q => too_large t (toBlob c "image/jpeg" q) = true) qs ->
  Forall (over_budget t) (map (full_encoding c) qs).
Proof. intros Hqs. apply Forall_map. exact Hqs. Qed.

Lemma over_budget_scaled (t : num) (image : Image) (scs : list num) :
  Forall (fun sc => too_large t (toBlob (scaled_canvas image sc)
                                   "image/jpeg" (dec 5 10)) = true) scs ->
  Forall (over_budget t) (map (scaled_encoding image) scs).
Proof. intros Hscs. apply Forall_map. exact Hscs. Qed.



(** The artifact of a call that returns: within the budget, or the answer to
    a last request at quality 0.1 that only requests answered above the budget
    came before. *)
Lemma budget_or_exhausted (file : Blob)
    (targetSizeKB : num) :
  let t := targetSizeKB * of_Z 1024 in
  match compressImageToTarget file targetSizeKB start with
  | (Returned r, w) =>
      (exists b e,
         blob r = Some b /\ (of_Z (size b) <=? t) = true /\
         In e (encodings w) /\ answer e = Some b)
      \/
      (exists earlier final,
         encodings w = earlier ++ [final] /\
         Forall (over_budget t) earlier /\
         enc_quality final = dec 1 10 /\
         enc_canvas final = canvas w /\
         blob r = answer final)
  | (Thrown _, _) => True
  end.
Proof.
  intros t.
  destruct (decode file) as [image |] eqn:Hdecode.
  2:{ rewrite compressImageToTarget_run, Hdecode. exact I. }
  destruct context2d eqn:Hctx.
  2:{ rewrite compressImageToTarget_run, Hdecode, Hctx. exact I. }
  destruct (compressImageToTarget_outcome file targetSizeKB image Hdecode Hctx)
    as (qs & scs & rest & _ & _ & Hrun).
  destruct (compressImageToTarget file targetSizeKB start) as [[r | e] w];
    [| exact I].
  fold t in Hrun.
  destruct Hrun
    as [(_ & -> & _ & q & b & Hq & Hb & Hsz & ->)
       | [(Hqs & scs' & sc & b & -> & -> & Hscs & Hb & Hsz & ->)
         | (Hqs & _ & Hscs & Hw)]].
  - left. exists b, (full_encoding (full_canvas image) q).
    repeat split; [exact Hsz | | exact Hb].
    cbn [encodings]. apply in_map. exact Hq.
  - left. exists b, (scaled_encoding image sc).
    repeat split; [exact Hsz | | exact Hb].
    cbn [encodings]. apply in_or_app. right. apply in_map.
    apply in_or_app. right. now left.
  - right. cbv zeta in Hw. destruct Hw as [-> ->].
    eexists _, _. cbn [encodings canvas blob].
    split; [rewrite app_assoc; reflexivity |].
    repeat split.
    apply Forall_app. split;
      [apply over_budget_full, Hqs | apply over_budget_scaled, Hscs].
Qed.

(** X2.  The best-effort contract.  The artifact of a call that returns is a
    blob within the budget, the answer to one of its requests; unless it is
    the answer to the last request, made at quality 0.1 on the canvas as the
    call leaves it, every request before which was answered with a blob above
    the budget. *)
Theorem returned_within_budget_or_exhausted (file : Blob) (targetSizeKB : num) :
  let t := targetSizeKB * of_Z 1024 in
  match compressImageToTarget file targetSizeKB start with
  | (Returned r, w) =>
      (exists b e,
         blob r = Some b /\ (of_Z (size b) <=? t) = true /\
         In e (encodings w) /\ answer e = Some b)
      \/
      (exists earlier final,
         encodings w = earlier ++ [final] /\
         Forall (over_budget t) earlier /\
         enc_quality final = dec 1 10 /\
         enc_canvas final = canvas w /\
         blob r = answer final)
  | (Thrown _, _) => True
  end.
Proof. exact (budget_or_exhausted file targetSizeKB). Qed.

(** X7.  Whatever the type of the file, every encoding a call requests is a
    JPEG. *)
Theorem compressImageToTarget_always_jpeg (file : Blob) (targetSizeKB : num) :
  Forall (fun e => enc_type e = "image/jpeg"%string)
    (encodings (snd (compressImageToTarget file targetSizeKB start))).
Proof.
  pose proof (compressImageToTarget_requests file targetSizeKB) as Hparts.
  cbv zeta in Hparts.
  destruct (decode file) as [image |]; [| rewrite Hparts; constructor].
  destruct Hparts as (qs & scs & rest & final & -> & _ & _ & _ & Hfin).
  apply Forall_app. split; [| apply Forall_app; split].
  - apply Forall_map, Forall_forall. reflexivity.
  - apply Forall_map, Forall_forall. reflexivity.
  - destruct Hfin as [-> | ->]; repeat constructor.
Qed.

End Contract.

Lemma StronglySorted_last {A : Type} (R : A -> A -> Prop) (l : list A) (x : A) :
  StronglySorted R (l ++ [x]) -> Forall (fun y => R y x) l.
Proof.
  induction l as [| a l IH]; intros Hs; [constructor |].
  cbn [app] in Hs. apply StronglySorted_inv in Hs as [Hs Ha].
  constructor; [| exact (IH Hs)].
  rewrite Forall_forall in Ha. apply Ha. apply in_or_app. right. now left.
Qed.

Lemma first_pass_exits_computed (a : arithmetic) :
  let N := number_of a in
  forallb emptied_at_four (first_pass_exits 10 (dec 1 100) (of_Z 1) 0) = true /\
  forallb well_inside (nodes (first_pass_tree 10 (dec 1 100) (of_Z 1) 0)) = true.
Proof. destruct a; vm_compute; split; reflexivity. Qed.

Section FurtherBothArithmetics.
Context (a : arithmetic).
#[local] Hint Extern 0 Number => exact (number_of a) : typeclass_instances.
Context {H : Host}.
Local Open Scope num_scope.

(** X3.  In either arithmetic, a first pass in which no encoding comes back
    [null] makes exactly four requests and ends because its interval has
    become empty, with its count at 4: the cap of 10 iterations is never
    reached.  One that meets a [null] has made at most four. *)
Theorem first_pass_four_tries (targetSizeBytes : num) (w : World) :
  match first_pass 10 targetSizeBytes initial_search w with
  | (Returned s', w') =>
      List.length (encodings w') = (List.length (encodings w) + 4)%nat /\
      iterations s' = 4%nat /\
      (minQ s' <=? maxQ s') = false
  | (Thrown _, w') =>
      (List.length (encodings w') <= List.length (encodings w) + 4)%nat
  end.
Proof.
  destruct (first_pass_exits_computed a) as (Hexits & _).
  destruct (first_pass_tree_computed a) as (_ & _ & Hdepth & _).
  cbv zeta in Hexits, Hdepth. rewrite forallb_forall in Hexits.
  destruct (first_pass_requests targetSizeBytes 10 initial_search w)
    as (qs' & Hw' & _ & Hlen & _).
  rewrite tree_from_initial, Hdepth in Hlen.
  destruct (first_pass_answers targetSizeBytes 10 initial_search w)
    as (qs & Hw & Hr).
  destruct (first_pass 10 targetSizeBytes initial_search w) as [[s' | e] w'];
    cbn [fst snd] in Hw, Hw', Hr.
  - destruct Hr as (_ & Hit & Hexit).
    cbn [minQ maxQ iterations initial_search] in Hit, Hexit.
    apply Hexits in Hexit. cbn [emptied_at_four] in Hexit.
    apply andb_true_iff in Hexit as [Hfour Hempty].
    apply Nat.eqb_eq in Hfour. apply negb_true_iff in Hempty.
    rewrite Hw. cbn [encodings]. rewrite length_app, length_map.
    repeat split; [lia | exact Hfour | exact Hempty].
  - rewrite Hw'. cbn [encodings]. rewrite length_app, length_map. lia.
Qed.

(** X4.  In either arithmetic, every quality the first pass tries lies
    between 0.028 and 0.982: the two ends of the interval it starts from,
    0.01 and 1.0, are never tried. *)
Theorem first_pass_well_inside (targetSizeBytes : num) (w : World) :
  exists qs,
    snd (first_pass 10 targetSizeBytes initial_search w)
    = mkWorld (canvas w) (encodings w ++ map (full_encoding (canvas w)) qs) /\
    Forall (fun q => (dec 28 1000 <=? q) = true /\ (q <=? dec 982 1000) = true)
      qs.
Proof.
  destruct (first_pass_exits_computed a) as (_ & Hinside).
  cbv zeta in Hinside. rewrite forallb_forall in Hinside.
  destruct (first_pass_requests targetSizeBytes 10 initial_search w)
    as (qs & Hw & Hin & _).
  rewrite tree_from_initial in Hin.
  exists qs. split; [exact Hw |].
  apply Forall_forall. intros q Hq.
  apply andb_true_iff. exact (Hinside q (Hin q Hq)).
Qed.

(** X5.  In either arithmetic, the candidate the first pass ends on is the
    best it met: the answer to the request of highest quality among those
    whose answer was within the budget.  It ends without a candidate only
    when no answer was. *)
Theorem first_pass_keeps_best (targetSizeBytes : num) (w : World) :
  exists qs,
    snd (first_pass 10 targetSizeBytes initial_search w)
    = mkWorld (canvas w) (encodings w ++ map (full_encoding (canvas w)) qs) /\
    match fst (first_pass 10 targetSizeBytes initial_search w) with
    | Returned s' =>
        match bestBlob s' with
        | Some b =>
            exists q,
              In q qs /\
              toBlob (canvas w) "image/jpeg" q = Some b /\
              (of_Z (size b) <=? targetSizeBytes) = true /\
              forall q',
                In q' qs ->
                fits targetSizeBytes (toBlob (canvas w) "image/jpeg" q')
                = true ->
                q' = q \/ (q' <? q) = true
        | None =>
            forall q',
              In q' qs ->
              fits targetSizeBytes (toBlob (canvas w) "image/jpeg" q') = false
        end
    | Thrown e => e = TypeError
    end.
Proof.
  destruct (first_pass_tree_computed a) as (_ & Hasc & _). cbv zeta in Hasc.
  destruct (first_pass_requests targetSizeBytes 10 initial_search w)
    as (qs & Hw & _ & _ & Hsorted & Hr).
  rewrite tree_from_initial in Hsorted. specialize (Hsorted Hasc).
  exists qs. split; [exact Hw |].
  destruct (fst (first_pass 10 targetSizeBytes initial_search w))
    as [s' | e]; [| exact (proj1 Hr)].
  destruct Hr as [Hbest _]. cbn [bestBlob initial_search] in Hbest.
  rewrite Hbest.
  destruct (last (map (toBlob (canvas w) "image/jpeg")
                    (recorded (canvas w) targetSizeBytes qs)) None)
    as [b |] eqn:Hlast.
  - apply last_map_some in Hlast as (l' & q & Hrec & Hb).
    assert (Hq : In q (recorded (canvas w) targetSizeBytes qs))
      by (rewrite Hrec; apply in_or_app; right; now left).
    apply filter_In in Hq as [Hq Hfit].
    exists q. rewrite Hb in Hfit. cbn [fits] in Hfit.
    repeat split; try assumption.
    intros q' Hq' Hfit'.
    assert (Hin' : In q' (recorded (canvas w) targetSizeBytes qs))
      by (apply filter_In; split; assumption).
    rewrite Hrec in Hin', Hsorted.
    apply in_app_or in Hin' as [Hin' | [<- | []]]; [right | now left].
    apply StronglySorted_last in Hsorted. rewrite Forall_forall in Hsorted.
    exact (Hsorted q' Hin').
  - intros q' Hq'.
    destruct (fits targetSizeBytes (toBlob (canvas w) "image/jpeg" q'))
      eqn:Hfit'; [| reflexivity].
    assert (Hin' : In q' (recorded (canvas w) targetSizeBytes qs))
      by (apply filter_In; split; assumption).
    destruct (recorded (canvas w) targetSizeBytes qs) as [| x l] eqn:Hrec
      using rev_ind; [destruct Hin' |].
    rewrite map_app in Hlast. cbn [map] in Hlast. rewrite last_last in Hlast.
    assert (Hx : In x (recorded (canvas w) targetSizeBytes qs))
      by (rewrite Hrec; apply in_or_app; right; now left).
    apply filter_In in Hx as [_ Hx]. rewrite Hlast in Hx. discriminate.
Qed.

(** X6.  In either arithmetic, the second pass returns at the first of its
    scales whose encoding at quality 0.5 is within the budget: every scale
    before it was answered with a blob above the budget, and the result has
    the dimensions of that scale. *)
Theorem second_pass_first_fit (image : Image) (targetSizeBytes : num)
    (w : World) :
  match fst (second_pass 15 image targetSizeBytes (initial_scaling image) w)
  with
  | Returned (inl result) =>
      exists before sc after b,
        scales a = before ++ sc :: after /\
        Forall (fun sc' =>
                  too_large targetSizeBytes
                    (toBlob (scaled_canvas image sc') "image/jpeg" (dec 5 10))
                  = true) before /\
        toBlob (scaled_canvas image sc) "image/jpeg" (dec 5 10) = Some b /\
        (of_Z (size b) <=? targetSizeBytes) = true /\
        result = mkResult (Some b) (scaled_width image sc)
                          (scaled_height image sc)
  | Returned (inr s') =>
      Forall (fun sc' =>
                too_large targetSizeBytes
                  (toBlob (scaled_canvas image sc') "image/jpeg" (dec 5 10))
                = true) (scales a)
  | Thrown e => e = TypeError
  end.
Proof.
  destruct (second_pass_computed a) as (Hscales & _).
  destruct (second_pass_answers image targetSizeBytes 15
              (initial_scaling image) w) as (scs & rest & Hsc & _ & Hr).
  cbn [scale iterations2 initial_scaling] in Hsc. rewrite Hscales in Hsc.
  destruct (fst (second_pass 15 image targetSizeBytes
                   (initial_scaling image) w)) as [[result | s'] | e].
  - destruct Hr as (scs' & sc & b & -> & Hlarge & Hb & Hsz & ->).
    exists scs', sc, rest, b. rewrite <- app_assoc in Hsc.
    repeat split; assumption.
  - destruct Hr as (-> & Hlarge & _). rewrite app_nil_r in Hsc.
    rewrite Hsc. exact Hlarge.
  - exact (proj1 Hr).
Qed.

End FurtherBothArithmetics.

(** ** The dimensions of what is returned *)

Lemma last_default_or_in {A : Type} (l : list A) (d : A) :
  last l d = d \/ In (last l d) l.
Proof.
  destruct l as [| a l] using rev_ind; [now left | right].
  rewrite last_last. apply in_or_app. right. now left.
Qed.

Lemma exact_scaled_bounds (extent : Z) (sc : Q) :
  (0 <= extent)%Z -> (0 <= sc)%Q -> (sc <= 1)%Q ->
  (0 <= Qfloor (Qred (inject_Z extent * sc)) <= extent)%Z.
Proof.
  intros Hextent Hsc0 Hsc1.
  assert (He : (0 <= inject_Z extent)%Q).
  { change 0%Q with (inject_Z 0). rewrite <- Zle_Qle. exact Hextent. }
  split.
  - rewrite <- (Qfloor_Z 0). apply Qfloor_resp_le.
    rewrite Qred_correct. apply Qmult_le_0_compat; assumption.
  - rewrite <- (Qfloor_Z extent) at 2. apply Qfloor_resp_le.
    rewrite Qred_correct. nra.
Qed.

Lemma exact_scales_in_unit :
  Forall (fun sc => (0 <= sc)%Q /\ (sc <= 1)%Q) (scales Exact).
Proof. repeat constructor; discriminate. Qed.

Section ExactDimensions.
#[local] Existing Instance Exact_Number.
Context {H : Host}.
Local Open Scope num_scope.

Lemma exact_scaled_within (image : Image) (sc : num) :
  In sc (scales Exact) ->
  (0 <= image_width image)%Z -> (0 <= image_height image)%Z ->
  (0 <= scaled_width image sc <= image_width image)%Z /\
  (0 <= scaled_height image sc <= image_height image)%Z.
Proof.
  intros Hsc Hw Hh.
  pose proof exact_scales_in_unit as Hunit. rewrite Forall_forall in Hunit.
  destruct (Hunit sc Hsc) as [H0 H1].
  split; [exact (exact_scaled_bounds _ sc Hw H0 H1)
         | exact (exact_scaled_bounds _ sc Hh H0 H1)].
Qed.

(** X8.  In exact arithmetic a call never enlarges: for an image of
    non-negative dimensions, the width and the height it returns lie between
    0 and those of the image. *)
Theorem returned_dimensions_bounded (file : Blob) (targetSizeKB : num)
    (image : Image) (r : CompressionResult) (w : World) :
  decode file = Some image ->
  (0 <= image_width image)%Z ->
  (0 <= image_height image)%Z ->
  compressImageToTarget file targetSizeKB start = (Returned r, w) ->
  (0 <= width r <= image_width image)%Z /\
  (0 <= height r <= image_height image)%Z.
Proof.
  intros Hdecode Hw Hh Hrun.
  destruct context2d eqn:Hctx.
  2:{ rewrite compressImageToTarget_run, Hdecode, Hctx in Hrun.
      discriminate. }
  destruct (compressImageToTarget_outcome file targetSizeKB image Hdecode Hctx)
    as (qs & scs & rest & _ & Hsc & Hout).
  rewrite Hrun in Hout.
  destruct (second_pass_computed Exact) as (Hscales & _).
  change (number_of Exact) with Exact_Number in Hscales.
  rewrite Hscales in Hsc.
  destruct Hout
    as [(_ & _ & _ & q & b & _ & _ & _ & ->)
       | [(_ & scs' & sc & b & -> & _ & _ & _ & _ & ->)
         | (_ & -> & _ & Hlast)]].
  - cbn [width height]. lia.
  - cbn [width height]. apply exact_scaled_within; try assumption.
    rewrite Hsc. apply in_or_app. left. apply in_or_app. right. now left.
  - cbv zeta in Hlast. destruct Hlast as [_ ->]. cbn [width height].
    rewrite app_nil_r in Hsc. subst scs.
    destruct (scales_last Exact) as (Hsplit & _).
    change (number_of Exact) with Exact_Number in Hsplit.
    rewrite Hsplit, !map_app. cbn [map]. rewrite !last_last.
    apply exact_scaled_within; try assumption.
    rewrite Hsplit. apply in_or_app. right. now left.
Qed.

End ExactDimensions.

Lemma returned_dimensions_bounded_witness :
  let H := stub_host Exact picture_1000_800 true heavy_encoder in
  (0 <= 100 <= 1000)%Z /\ (0 <= 80 <= 800)%Z.
Proof.
  intros H.
  apply (@returned_dimensions_bounded H 0%Z (inject_Z 50) picture_1000_800
           (@mkResult Exact_Number H (Some 1000000%Z) 100 80)
           (snd (@compressImageToTarget Exact_Number H 0%Z (inject_Z 50)
                   (@start Exact_Number H)))).
  - reflexivity.
  - discriminate.
  - discriminate.
  - etransitivity; [apply surjective_pairing |].
    f_equal.
Defined.

(** ** The dimensions of a crop *)

Section ExactCropBounds.
#[local] Existing Instance Exact_Number.
Context {H : Host}.
Local Open Scope num_scope.

(** X17.  In exact arithmetic a crop never has more pixels than the image:
    for a valid region of an image whose natural dimensions are at most
    2^31 - 1, the artifact returned is between 0 and the natural width wide,
    and between 0 and the natural height high. *)
Theorem cropped_within_natural
    (image : Image) (crop : PixelCrop) (type : option string) (d : Z * Z) :
  valid_crop image crop ->
  (0 <= naturalWidth image <= 2147483647)%Z ->
  (0 <= naturalHeight image <= 2147483647)%Z ->
  cropped_dimensions image crop type = Some d ->
  (0 <= fst d <= naturalWidth image)%Z /\
  (0 <= snd d <= naturalHeight image)%Z.
Proof.
  intros (Hx & Hy & Hxw & Hyh & Hw & Hh) Hnw Hnh Hd.
  unfold cropped_dimensions in Hd. rewrite getCroppedImg_run in Hd.
  destruct (exact_extent_bounds _ _ _ (naturalWidth image) Hx Hxw Hw
              (proj1 Hnw)) as (Hx0 & Hfx).
  destruct (exact_extent_bounds _ _ _ (naturalHeight image) Hy Hyh Hh
              (proj1 Hnh)) as (Hy0 & Hfy).
  assert (Hcw : canvas_width (cropped_canvas image crop)
                = floor (crop_width crop * scaleX image)%num).
  { unfold cropped_canvas. cbn [canvas_width].
    rewrite exact_trunc_floor by exact Hx0.
    apply reflect_unsigned_long_small.
    split; [exact (proj1 Hfx) |].
    apply Z.le_trans with (naturalWidth image); [exact (proj2 Hfx) | lia]. }
  assert (Hch : canvas_height (cropped_canvas image crop)
                = floor (crop_height crop * scaleY image)%num).
  { unfold cropped_canvas. cbn [canvas_height].
    rewrite exact_trunc_floor by exact Hy0.
    apply reflect_unsigned_long_small.
    split; [exact (proj1 Hfy) |].
    apply Z.le_trans with (naturalHeight image); [exact (proj2 Hfy) | lia]. }
  destruct context2d; [| discriminate].
  cbv zeta in Hd.
  destruct (toBlob _ _ _); [| discriminate].
  cbn [canvas] in Hd. rewrite Hcw, Hch in Hd. injection Hd as <-.
  split; [exact Hfx | exact Hfy].
Qed.

End ExactCropBounds.

Lemma cropped_within_natural_witness :
  let H := stub_host Exact picture_5_on_4 true area_encoder in
  (0 <= 3 <= 5)%Z /\ (0 <= 3 <= 5)%Z.
Proof.
  intros H.
  apply (@cropped_within_natural H picture_5_on_4 (crop_3 Exact) None (3, 3)%Z).
  - vm_compute. repeat split; reflexivity.
  - vm_compute. split; discriminate.
  - vm_compute. split; discriminate.
  - vm_compute. reflexivity.
Defined.

(** The region that covers all of the displayed image, in the two
    arithmetics: the exact product is the natural width, the double
    [303 * (640 / 303)] is just below it, and the crop loses a pixel. *)
Example whole_crop_binary64 :
  (let H := stub_host Exact picture_640_on_303 true area_encoder in
   @cropped_dimensions Exact_Number H picture_640_on_303
     (@whole_crop Exact_Number H picture_640_on_303) None
   = Some (640, 480)%Z) /\
  (let H := stub_host Binary64 picture_640_on_303 true area_encoder in
   @cropped_dimensions Binary64_Number H picture_640_on_303
     (@whole_crop Binary64_Number H picture_640_on_303) None
   = Some (639, 480)%Z).
Proof. split; vm_compute; reflexivity. Qed.

(** * The application *)

(** ** Sorting as [Array.prototype.sort] does *)

Section Sorting.
Context {A : Type} (compare : A -> A -> Z).

(** [a] may stand before [b]. *)
Let before (a b : A) : Prop := (compare a b <= 0)%Z.

Lemma sort_insert_permutation (a : A) (l : list A) :
  Permutation (sort_insert compare a l) (a :: l).
Proof.
  induction l as [| b l IH]; cbn [sort_insert]; [reflexivity |].
  destruct (compare a b <=? 0)%Z; [reflexivity |].
  rewrite IH. apply perm_swap.
Qed.

Lemma array_sort_permutation (l : list A) :
  Permutation (array_sort compare l) l.
Proof.
  induction l as [| a l IH]; [reflexivity |].
  unfold array_sort in *. cbn [fold_right].
  rewrite sort_insert_permutation. now constructor.
Qed.

Hypothesis compare_total : forall a b, (0 < compare a b)%Z -> before b a.
Hypothesis compare_transitive :
  forall a b c, before a b -> before b c -> before a c.

Lemma sort_insert_sorted (a : A) (l : list A) :
  StronglySorted before l -> StronglySorted before (sort_insert compare a l).
Proof.
  induction l as [| b l IH]; intros Hl; cbn [sort_insert].
  - repeat constructor.
  - apply StronglySorted_inv in Hl as [Hl Hb].
    destruct (Z.leb_spec (compare a b) 0) as [Hab | Hab].
    + constructor; [constructor; assumption |].
      constructor; [exact Hab |].
      apply Forall_forall. intros c Hc. rewrite Forall_forall in Hb.
      exact (compare_transitive a b c Hab (Hb c Hc)).
    + constructor; [exact (IH Hl) |].
      apply Forall_forall. intros c Hc.
      apply (Permutation_in _ (sort_insert_permutation a l)) in Hc.
      destruct Hc as [<- | Hc]; [exact (compare_total a b Hab) |].
      rewrite Forall_forall in Hb. exact (Hb c Hc).
Qed.

Lemma array_sort_sorted (l : list A) :
  StronglySorted before (array_sort compare l).
Proof.
  induction l as [| a l IH]; [constructor |].
  unfold array_sort in *. cbn [fold_right]. now apply sort_insert_sorted.
Qed.

End Sorting.

Lemma array_sort_of_sorted {A : Type} (compare : A -> A -> Z) (l : list A) :
  StronglySorted (fun a b => (compare a b <= 0)%Z) l ->
  array_sort compare l = l.
Proof.
  induction l as [| a l IH]; intros Hl; [reflexivity |].
  apply StronglySorted_inv in Hl as [Hl Ha].
  unfold array_sort in *. cbn [fold_right]. rewrite (IH Hl).
  destruct l as [| b l]; [reflexivity |]. cbn [sort_insert].
  apply Forall_inv in Ha. apply Z.leb_le in Ha. rewrite Ha. reflexivity.
Qed.

Lemma StronglySorted_weaken {A : Type} (R R' : A -> A -> Prop) (l : list A) :
  (forall a b, R a b -> R' a b) ->
  StronglySorted R l -> StronglySorted R' l.
Proof.
  intros HR. induction 1 as [| a l Hl IH Ha]; constructor; [exact IH |].
  revert Ha. apply Forall_impl. exact (HR a).
Qed.

Lemma StronglySorted_filter {A : Type} (R : A -> A -> Prop) (f : A -> bool)
    (l : list A) :
  StronglySorted R l -> StronglySorted R (filter f l).
Proof.
  induction 1 as [| a l Hl IH Ha]; cbn [filter]; [constructor |].
  destruct (f a); [| exact IH].
  constructor; [exact IH |].
  apply Forall_forall. intros b Hb. apply filter_In in Hb as [Hb _].
  rewrite Forall_forall in Ha. exact (Ha b Hb).
Qed.

Section ApplicationFacts.
Context {N : Number} {H : Host} {P : Page}.

(** ** The history *)

(** X9.  The history shown is the items whose lower-cased name includes the
    lower-cased search text, each as often as it is kept, in the order asked
    for: latest first for [newest], earliest first for [oldest]. *)
Theorem filteredHistory_sorted (app : AppModel) :
  let shown := fun item =>
    includes (toLowerCase (item_fileName item))
             (toLowerCase (historySearch app)) in
  Permutation (filteredHistory app) (filter shown (history app)) /\
  StronglySorted (in_order (historySort app)) (filteredHistory app).
Proof.
  intros shown. unfold filteredHistory. fold shown.
  split; [apply array_sort_permutation |].
  destruct (historySort app).
  - apply (StronglySorted_weaken
             (fun a b => (item_timestamp b - item_timestamp a <= 0)%Z));
      [intros a b; unfold in_order; lia |].
    apply array_sort_sorted; [intros a b | intros a b c]; cbv beta; lia.
  - apply (StronglySorted_weaken
             (fun a b => (item_timestamp a - item_timestamp b <= 0)%Z));
      [intros a b; unfold in_order; lia |].
    apply array_sort_sorted; [intros a b | intros a b c]; cbv beta; lia.
Qed.

(** X10.  A history kept in the order asked for is shown as it is kept, less
    the items that do not match: the sort moves nothing, items of equal time
    included. *)
Theorem filteredHistory_of_sorted (app : AppModel) :
  StronglySorted (in_order (historySort app)) (history app) ->
  filteredHistory app
  = filter (fun item =>
              includes (toLowerCase (item_fileName item))
                       (toLowerCase (historySearch app)))
           (history app).
Proof.
  intros Hsorted. unfold filteredHistory. apply array_sort_of_sorted.
  apply StronglySorted_filter.
  revert Hsorted. apply StronglySorted_weaken.
  intros a b. destruct (historySort app); unfold in_order; lia.
Qed.

Lemma find_none_of_others (id : string) (l : list HistoryItem) :
  ~ In id (map item_id l) ->
  find (fun item => String.eqb (item_id item) id) l = None /\
  filter (fun item => negb (String.eqb (item_id item) id)) l = l.
Proof.
  induction l as [| x l IH]; intros Hid; [split; reflexivity |].
  cbn [map In] in Hid. cbn [find filter].
  destruct (String.eqb_spec (item_id x) id) as [Hx | Hx];
    [elim Hid; now left |].
  cbn [negb]. destruct IH as [Hfind Hfilter]; [tauto |].
  split; [exact Hfind | now rewrite Hfilter].
Qed.

(** X11.  Deleting from a history whose ids are all different removes the
    one item with the id given, leaves the others in their order, and revokes
    the URL of that item and no other. *)
Theorem deleteHistoryItem_unique (id : string) (app : AppModel) (br : Browser)
    (before after : list HistoryItem) (item : HistoryItem) :
  history app = before ++ item :: after ->
  item_id item = id ->
  NoDup (map item_id (history app)) ->
  history (fst (deleteHistoryItem id app br)) = before ++ after /\
  snd (deleteHistoryItem id app br)
  = mkBrowser (minted br) (item_url item :: revoked br) (clock_reads br).
Proof.
  intros Hhistory Hid Hnodup.
  rewrite Hhistory, map_app in Hnodup. cbn [map] in Hnodup.
  apply NoDup_remove_2 in Hnodup. rewrite Hid in Hnodup.
  assert (Hbefore : ~ In id (map item_id before))
    by (intros Hin; apply Hnodup, in_or_app; now left).
  assert (Hafter : ~ In id (map item_id after))
    by (intros Hin; apply Hnodup, in_or_app; now right).
  destruct (find_none_of_others id before Hbefore) as [Hfind Hkeep].
  destruct (find_none_of_others id after Hafter) as [_ Hkeep'].
  unfold deleteHistoryItem. cbn [fst snd history setToast setHistory].
  rewrite Hhistory. split.
  - rewrite filter_app. cbn [filter]. rewrite Hid, String.eqb_refl.
    cbn [negb]. now rewrite Hkeep, Hkeep'.
  - assert (Hfound : find (fun x => String.eqb (item_id x) id)
                       (before ++ item :: after) = Some item).
    { clear Hkeep Hbefore Hhistory. induction before as [| x l IH].
      - cbn [List.app find]. now rewrite Hid, String.eqb_refl.
      - cbn [List.app find] in Hfind |- *.
        destruct (String.eqb (item_id x) id); [discriminate |].
        apply IH; [| exact Hfind].
        intros Hin. apply Hnodup. cbn [map List.app]. now right. }
    rewrite Hfound. reflexivity.
Qed.

(** X12.  Deleting an id that no item has changes neither the history nor
    the URLs: only the toast is set. *)
Theorem deleteHistoryItem_absent (id : string) (app : AppModel) (br : Browser) :
  ~ In id (map item_id (history app)) ->
  history (fst (deleteHistoryItem id app br)) = history app /\
  snd (deleteHistoryItem id app br) = br.
Proof.
  intros Hid. destruct (find_none_of_others id (history app) Hid)
    as [Hfind Hkeep].
  unfold deleteHistoryItem. cbn [fst snd history setToast setHistory].
  rewrite Hfind, Hkeep. split; reflexivity.
Qed.

(** ** Resizing *)

(** X13.  When [handleResize] ends with the component [COMPLETED], having
    started otherwise, the compression of the file selected to the target
    typed has returned a blob.  Three URLs have been made: the first by
    [fileToImage], for the file; the second is the result's, which holds the
    blob and its dimensions; the third is that of the one item the history
    has gained in front, with the size of the blob.  And the blob is within
    the budget typed, unless the call went down to its last request, every
    request before which was answered with a blob above the budget. *)
Theorem handleResize_completed (app : AppModel) (br : Browser) :
  state app <> COMPLETED ->
  state (fst (handleResize app br)) = COMPLETED ->
  exists file kb r b,
    originalFile app = Some file /\
    parseInt (targetKB app) = Some kb /\
    (0 < kb)%Z /\
    let run := compressImageToTarget file (of_Z kb) start in
    let t := (of_Z kb * of_Z 1024)%num in
    fst run = Returned r /\
    blob r = Some b /\
    result (fst (handleResize app br))
    = Some (mkProcessedImage b (objectURL (S (minted br))) (size file)
                             (size b) (width r) (height r)) /\
    history (fst (handleResize app br))
    = mkHistoryItem (integer_toString (clock (clock_reads br)))
                    (objectURL (S (S (minted br)))) (fileName app)
                    (size file) (size b) (clock (S (clock_reads br)))
      :: history app /\
    snd (handleResize app br)
    = mkBrowser (S (S (S (minted br)))) (revoked br)
                (S (S (clock_reads br))) /\
    ((of_Z (size b) <=? t)%num = true \/
     exists earlier final,
       encodings (snd run) = earlier ++ [final] /\
       Forall (over_budget t) earlier /\
       enc_quality final = dec 1 10 /\
       answer final = Some b).
Proof.
  intros Hstart Hend. unfold handleResize, compressImageToTarget_on_page in *.
  destruct (originalFile app) as [file |]; [| contradiction].
  destruct (String.eqb (targetKB app) ""); [contradiction |].
  destruct (parseInt (targetKB app)) as [kb |]; [| contradiction].
  destruct (Z.leb_spec kb 0) as [Hkb | Hkb]; [contradiction |].
  cbv zeta in Hend |- *. cbn [createObjectURL] in Hend |- *.
  pose proof (budget_or_exhausted file (of_Z kb))
    as Hbudget. cbv zeta in Hbudget.
  destruct (compressImageToTarget file (of_Z kb) start) as [[r | e] w] eqn:Hrun;
    cbn [fst snd] in *; [| discriminate].
  destruct (blob r) as [b |] eqn:Hb; [| discriminate].
  exists file, kb, r, b. rewrite Hrun.
  cbn [fst snd result history minted revoked setToast setState setHistory
       setResult createObjectURL Date_now fileName clock_reads].
  do 8 (split; [first [reflexivity | assumption] |]).
  destruct Hbudget as [(b' & e & Hb' & Hsz & _)
                      | (earlier & final & Hw & Hlarge & Hq & _ & Hfinal)].
  - left. injection Hb' as <-. exact Hsz.
  - right. exists earlier, final.
    repeat split; try assumption. now symmetry.
Qed.

(** X14.  Unless [handleResize] ends with the component [COMPLETED], it
    has read no clock, revoked nothing, and left the history and the result
    as they were.  Either it has made no URL, or it has started the
    compression of the file selected to a target typed: then it has made the
    one URL of [fileToImage], which it leaves behind, and it ends [SELECTED]
    with the toast 'Failed to process image.'. *)
Theorem handleResize_failure_frame (app : AppModel) (br : Browser) :
  state (fst (handleResize app br)) <> COMPLETED ->
  history (fst (handleResize app br)) = history app /\
  result (fst (handleResize app br)) = result app /\
  (snd (handleResize app br) = br \/
   exists file kb,
     originalFile app = Some file /\
     parseInt (targetKB app) = Some kb /\
     (0 < kb)%Z /\
     snd (handleResize app br)
     = mkBrowser (S (minted br)) (revoked br) (clock_reads br) /\
     state (fst (handleResize app br)) = SELECTED /\
     toast (fst (handleResize app br))
     = Some (mkToast toast_error "Failed to process image.")).
Proof.
  unfold handleResize, compressImageToTarget_on_page.
  destruct (originalFile app) as [file |] eqn:Hfile;
    [| repeat split; now left].
  destruct (String.eqb (targetKB app) ""); [repeat split; now left |].
  destruct (parseInt (targetKB app)) as [kb |] eqn:Hparse;
    [| repeat split; now left].
  destruct (Z.leb_spec kb 0) as [Hkb | Hkb]; [repeat split; now left |].
  cbv zeta. cbn [createObjectURL].
  assert (Hfailed : forall failed : AppModel * Browser,
            failed
            = (setState SELECTED
                 (setToast (Some (mkToast toast_error
                                    "Failed to process image."))
                    (setState PROCESSING app)),
               mkBrowser (S (minted br)) (revoked br) (clock_reads br)) ->
            history (fst failed) = history app /\
            result (fst failed) = result app /\
            (snd failed = br \/
             exists file' kb',
               Some file = Some file' /\
               Some kb = Some kb' /\
               (0 < kb')%Z /\
               snd failed
               = mkBrowser (S (minted br)) (revoked br) (clock_reads br) /\
               state (fst failed) = SELECTED /\
               toast (fst failed)
               = Some (mkToast toast_error "Failed to process image."))).
  { intros failed ->. repeat split. right. exists file, kb. repeat split.
    exact Hkb. }
  destruct (fst (compressImageToTarget file (of_Z kb) start)) as [r | e];
    [| intros _; now apply Hfailed].
  destruct (blob r) as [b |]; [| intros _; now apply Hfailed].
  cbn [fst state setToast setState]. intros Hstate. now elim Hstate.
Qed.

(** X15.  An item put into the history by a resize and deleted later, under
    an id no older item has: the history is back to what it was before the
    resize, the URL revoked is the one made for the item, the third of the
    resize, whatever else was revoked in between, and the result of the
    resize stays. *)
Theorem resize_then_delete (app : AppModel) (br later : Browser) :
  state app <> COMPLETED ->
  state (fst (handleResize app br)) = COMPLETED ->
  ~ In (integer_toString (clock (clock_reads br))) (map item_id (history app)) ->
  let resized := fst (handleResize app br) in
  let deleted :=
    deleteHistoryItem (integer_toString (clock (clock_reads br)))
                      resized later in
  history (fst deleted) = history app /\
  snd deleted = revokeObjectURL (objectURL (S (S (minted br)))) later /\
  result (fst deleted) = result resized /\
  result resized <> None.
Proof.
  intros Hstart Hend Hfresh. cbv zeta.
  destruct (find_none_of_others _ _ Hfresh) as [_ Hkeep].
  revert Hend. unfold handleResize, compressImageToTarget_on_page.
  destruct (originalFile app) as [file |]; [| contradiction].
  destruct (String.eqb (targetKB app) ""); [contradiction |].
  destruct (parseInt (targetKB app)) as [kb |]; [| contradiction].
  destruct (kb <=? 0)%Z; [contradiction |].
  cbv zeta. cbn [createObjectURL].
  destruct (fst (compressImageToTarget file (of_Z kb) start)) as [r | e];
    [| discriminate].
  destruct (blob r) as [b |]; [| discriminate].
  intros _. unfold deleteHistoryItem.
  cbn [fst snd history result minted setToast setState setHistory setResult
       createObjectURL Date_now find filter item_id item_url].
  rewrite String.eqb_refl. cbn [negb].
  rewrite Hkeep. repeat split. discriminate.
Qed.

(** X16.  After [deleteHistoryItem] no item with the id is left, however
    many there were; the items with another id are all kept; and one URL at
    most has been revoked. *)
Theorem deleteHistoryItem_removes_all (id : string) (app : AppModel)
    (br : Browser) :
  let deleted := deleteHistoryItem id app br in
  (forall item,
     In item (history (fst deleted)) <->
     In item (history app) /\ item_id item <> id) /\
  (List.length (revoked (snd deleted)) <= S (List.length (revoked br)))%nat.
Proof.
  cbv zeta. unfold deleteHistoryItem.
  cbn [fst snd history setToast setHistory]. split.
  - intros item. rewrite filter_In.
    destruct (String.eqb_spec (item_id item) id) as [Hid | Hid];
      cbn [negb]; intuition congruence.
  - destruct (find _ (history app)); cbn [revokeObjectURL revoked List.length];
      lia.
Qed.

End ApplicationFacts.

(** The page and the browser the application facts are tried on: a picture
    of 1000 by 800, an encoder whose output grows with the area and the
    quality, or one that gives nothing at the last quality. *)
Lemma filteredHistory_of_sorted_witness :
  let H := stub_host Exact picture_1000_800 true area_encoder in
  @filteredHistory Exact_Number H stub_page
    (@app_selected Exact_Number H stub_page 1000000%Z "50"%string)
  = [item_later; item_earlier].
Proof.
  intros H.
  etransitivity;
    [apply (@filteredHistory_of_sorted Exact_Number H stub_page
              (@app_selected Exact_Number H stub_page 1000000%Z "50"%string)) |
     reflexivity].
  cbn [historySort history app_selected].
  repeat constructor; unfold in_order; cbn; lia.
Defined.

Lemma deleteHistoryItem_unique_witness :
  let H := stub_host Exact picture_1000_800 true area_encoder in
  let app := @app_selected Exact_Number H stub_page 1000000%Z "50"%string in
  history (fst (@deleteHistoryItem Exact_Number H
                  "1700000000001"%string app browser_4)) = [item_later] /\
  snd (@deleteHistoryItem Exact_Number H
         "1700000000001"%string app browser_4) = mkBrowser 4 ["blob:1"%string] 4.
Proof.
  intros H app.
  apply (@deleteHistoryItem_unique Exact_Number H "1700000000001"%string
           app browser_4 [item_later] [] item_earlier).
  - reflexivity.
  - reflexivity.
  - cbn. repeat constructor; cbn; intuition discriminate.
Defined.

Lemma deleteHistoryItem_absent_witness :
  let H := stub_host Exact picture_1000_800 true area_encoder in
  let app := @app_selected Exact_Number H stub_page 1000000%Z "50"%string in
  history (fst (@deleteHistoryItem Exact_Number H
                  "1600000000000"%string app browser_4)) = [item_later; item_earlier] /\
  snd (@deleteHistoryItem Exact_Number H
         "1600000000000"%string app browser_4) = browser_4.
Proof.
  intros H app.
  apply (@deleteHistoryItem_absent Exact_Number H "1600000000000"%string
           app browser_4).
  cbn. intuition discriminate.
Defined.

Lemma handleResize_completed_witness :
  let H := stub_host Exact picture_1000_800 true area_encoder in
  let app := @app_selected Exact_Number H stub_page 1000000%Z "50"%string in
  state app <> COMPLETED /\
  state (fst (@handleResize Exact_Number H stub_page app browser_4))
  = COMPLETED /\
  snd (@handleResize Exact_Number H stub_page app browser_4)
  = mkBrowser 7 [] 6.
Proof.
  intros H app.
  assert (Hstart : state app <> COMPLETED) by discriminate.
  assert (Hend : state (fst (@handleResize Exact_Number H stub_page app
                               browser_4)) = COMPLETED) by reflexivity.
  split; [exact Hstart | split; [exact Hend |]].
  destruct (@handleResize_completed Exact_Number H stub_page app browser_4
              Hstart Hend)
    as (file & kb & r & b & _ & _ & _ & _ & _ & _ & _ & Hbrowser & _).
  exact Hbrowser.
Defined.

Lemma handleResize_failure_frame_witness :
  let H := stub_host Exact picture_1000_800 true null_at_tenth_encoder in
  let app := @app_selected Exact_Number H stub_page 1000000%Z "50"%string in
  history (fst (@handleResize Exact_Number H stub_page app browser_4))
  = [item_later; item_earlier] /\
  result (fst (@handleResize Exact_Number H stub_page app browser_4)) = None /\
  snd (@handleResize Exact_Number H stub_page app browser_4)
  = mkBrowser 5 [] 4.
Proof.
  intros H app.
  assert (Hend : state (fst (@handleResize Exact_Number H stub_page app
                               browser_4)) = SELECTED) by reflexivity.
  destruct (@handleResize_failure_frame Exact_Number H stub_page app
              browser_4) as (Hhistory & Hresult & Hbrowser).
  - rewrite Hend. discriminate.
  - split; [exact Hhistory | split; [exact Hresult |]].
    destruct Hbrowser as [Hsame | (file & kb & _ & _ & _ & Hone & _)];
      [| exact Hone].
    reflexivity.
Defined.

Lemma resize_then_delete_witness :
  let H := stub_host Exact picture_1000_800 true area_encoder in
  let app := @app_selected Exact_Number H stub_page 1000000%Z "50"%string in
  let resized :=
    fst (@handleResize Exact_Number H stub_page app browser_4) in
  let deleted :=
    @deleteHistoryItem Exact_Number H "1700000000004"%string resized
      (mkBrowser 7 ["blob:0"%string] 6) in
  history (fst deleted) = [item_later; item_earlier] /\
  snd deleted = mkBrowser 7 ["blob:6"%string; "blob:0"%string] 6 /\
  result (fst deleted) = result resized /\
  result resized <> None.
Proof.
  intros H app.
  apply (@resize_then_delete Exact_Number H stub_page app browser_4
           (mkBrowser 7 ["blob:0"%string] 6)).
  - discriminate.
  - reflexivity.
  - cbn. intuition discriminate.
Defined.

(** * Sizes as text *)

(** Reading digits after an integer already read. *)
Lemma read_digits_shift (s : string) (acc : Z) (count : nat) :
  read_digits s acc count
  = let '(v, k, rest) := read_digits s 0 0 in
    ((acc * 10 ^ Z.of_nat k + v)%Z, (count + k)%nat, rest).
Proof.
  assert (Hstop : forall (z : Z) (n : nat) (rest : string),
            (z, n, rest) = ((z * 10 ^ Z.of_nat 0 + 0)%Z, (n + 0)%nat, rest)).
  { intros z n rest. rewrite Nat.add_0_r.
    replace (z * 10 ^ Z.of_nat 0 + 0)%Z with z by (cbn; lia).
    reflexivity. }
  revert acc count. induction s as [| c s IH]; intros acc count;
    cbn [read_digits]; [apply Hstop |].
  destruct (digit_of c) as [d |]; [| apply Hstop].
  rewrite (IH (10 * acc + d)%Z (S count)), (IH (10 * 0 + d)%Z 1%nat).
  destruct (read_digits s 0 0) as [[v k] rest].
  replace (S count + k)%nat with (count + (1 + k))%nat by lia.
  replace ((10 * acc + d) * 10 ^ Z.of_nat k + v)%Z
    with (acc * 10 ^ Z.of_nat (1 + k)
          + ((10 * 0 + d) * 10 ^ Z.of_nat k + v))%Z; [reflexivity |].
  rewrite Nat2Z.inj_add, Z.pow_add_r by lia.
  change (10 ^ Z.of_nat 1)%Z with 10%Z. ring.
Qed.

Ltac read_digit :=
  cbn [NilEmpty.string_of_uint append read_digits];
  match goal with
  | |- context [digit_of ?c] =>
      let r := eval vm_compute in (digit_of c) in
      change (digit_of c) with r
  end;
  cbv iota beta.

(** The digits of a decimal numeral are read back as the number it stands
    for. *)
Lemma read_digits_uint_acc (d : Decimal.uint) :
  forall (rest : string) (acc : positive) (count : nat),
    read_digits (NilEmpty.string_of_uint d ++ rest) (Z.pos acc) count
    = read_digits rest (Z.pos (Pos.of_uint_acc d acc))
        (count + Decimal.nb_digits d).
Proof.
  induction d; intros rest acc count;
    [cbn [NilEmpty.string_of_uint append Pos.of_uint_acc Decimal.nb_digits];
     now rewrite Nat.add_0_r | ..];
    read_digit;
    cbn [Pos.of_uint_acc Decimal.nb_digits];
    rewrite <- Nat.add_succ_comm, <- IHd; f_equal; lia.
Qed.

Lemma read_digits_uint (d : Decimal.uint) :
  forall (rest : string) (count : nat),
    read_digits (NilEmpty.string_of_uint d ++ rest) 0 count
    = read_digits rest (Z.of_N (Pos.of_uint d)) (count + Decimal.nb_digits d).
Proof.
  induction d; intros rest count;
    [cbn [NilEmpty.string_of_uint append Pos.of_uint Decimal.nb_digits Z.of_N];
     now rewrite Nat.add_0_r | ..];
    read_digit;
    cbn [Pos.of_uint Decimal.nb_digits Z.of_N];
    rewrite <- Nat.add_succ_comm;
    [change (10 * 0 + 0)%Z with 0%Z; apply IHd | ..];
    match goal with
    | |- read_digits _ ?z _ = _ =>
        let p := eval vm_compute in z in change z with p
    end;
    apply read_digits_uint_acc.
Qed.

(** The decimal writing of a natural number: digits, one at least, that read
    back as the number. *)
Lemma integer_toString_digits (a : Z) :
  (0 <= a)%Z ->
  exists d,
    d <> Decimal.Nil /\
    integer_toString a = NilEmpty.string_of_uint d /\
    Z.of_N (Pos.of_uint d) = a.
Proof.
  intros Ha. destruct a as [| p | p]; [| | lia].
  - exists (Decimal.D0 Decimal.Nil). repeat split. discriminate.
  - exists (Pos.to_uint p).
    pose proof (Unsigned.to_uint_nonnil p) as Hnil.
    split; [exact Hnil | split].
    + unfold integer_toString. cbn [Z.to_int NilZero.string_of_int].
      unfold NilZero.string_of_uint.
      destruct (Pos.to_uint p); [contradiction | reflexivity ..].
    + now rewrite Unsigned.of_to.
Qed.

Lemma strip_sign_digits (d : Decimal.uint) (rest : string) :
  d <> Decimal.Nil ->
  strip_sign (NilEmpty.string_of_uint d ++ rest)
  = (false, (NilEmpty.string_of_uint d ++ rest)%string).
Proof. destruct d; [contradiction | reflexivity ..]. Qed.

Lemma nb_digits_nonnil (d : Decimal.uint) :
  d <> Decimal.Nil -> Decimal.nb_digits d <> 0%nat.
Proof. destruct d; [contradiction | discriminate ..]. Qed.

Lemma two_digits_read (b : Z) :
  (0 <= b < 100)%Z -> read_digits (two_digits b) 0 0 = (b, 2%nat, ""%string).
Proof.
  intros Hb.
  assert (Hall :
    forallb (fun n =>
               let '(v, k, rest) := read_digits (two_digits (Z.of_nat n)) 0 0 in
               (v =? Z.of_nat n)%Z && (k =? 2)%nat && String.eqb rest "")
            (seq 0 100) = true) by (vm_compute; reflexivity).
  rewrite forallb_forall in Hall.
  specialize (Hall (Z.to_nat b)). rewrite Z2Nat.id in Hall by lia.
  destruct (read_digits (two_digits b) 0 0) as [[v k] rest].
  assert (Hin : In (Z.to_nat b) (seq 0 100)) by (apply in_seq; lia).
  apply Hall in Hin.
  apply andb_true_iff in Hin as [Hin Hrest].
  apply andb_true_iff in Hin as [Hv Hk].
  apply Z.eqb_eq in Hv. apply Nat.eqb_eq in Hk. apply String.eqb_eq in Hrest.
  congruence.
Qed.

(** [parseFloat] reads back the hundredths [toFixed(2)] wrote. *)
Lemma parseFloat_toFixed_2 {N : Number} (x : num) (v : Q) :
  value x = Some v ->
  Qle_bool 0 v = true ->
  parseFloat (toFixed_2 x)
  = Some (of_Z (Qfloor (v * 100 + (1 # 2))) / of_Z 100)%num.
Proof.
  intros Hv Hpos. unfold toFixed_2. rewrite Hv, Hpos. cbv zeta.
  assert (Hv0 : (0 <= v)%Q) by (apply Qle_bool_iff; exact Hpos).
  rewrite (Qfloor_comp (Qabs v * 100 + (1 # 2)) (v * 100 + (1 # 2)))
    by (rewrite (Qabs_pos v Hv0); reflexivity).
  set (n := Qfloor (v * 100 + (1 # 2))).
  assert (Hn : (0 <= n)%Z).
  { unfold n. rewrite <- (Qfloor_Z 0). apply Qfloor_resp_le.
    change (inject_Z 0) with 0%Q. lra. }
  assert (Ha : (0 <= n / 100)%Z) by (apply Z.div_pos; lia).
  assert (Hb : (0 <= n mod 100 < 100)%Z) by (apply Z.mod_pos_bound; lia).
  destruct (integer_toString_digits (n / 100) Ha) as (d & Hd & Hs & Hval).
  unfold parseFloat. cbn [append]. rewrite Hs, (strip_sign_digits d _ Hd).
  rewrite read_digits_uint, Hval.
  cbn [append read_digits].
  change (digit_of ".") with (@None Z). cbv iota beta.
  rewrite (read_digits_shift (two_digits (n mod 100))).
  rewrite (two_digits_read _ Hb).
  destruct (Nat.eqb_spec (0 + Decimal.nb_digits d + (0 + 2)) 0) as [Hz | _];
    [lia |].
  change (10 ^ Z.of_nat (0 + 2))%Z with 100%Z.
  do 3 f_equal. pose proof (Z.div_mod n 100). lia.
Qed.

Section ExactFormatting.
#[local] Existing Instance Exact_Number.
Local Open Scope num_scope.

(** X19.  In exact arithmetic, the size of a file that is not empty is
    written in KB alone up to 5242 bytes, and in MB with the KB between
    brackets from 5243 bytes on: the MB figure is left out when it would read
    0.00. *)
Theorem formatFileSizeDual_threshold (bytes : Z) :
  (0 < bytes)%Z ->
  formatFileSizeDual bytes
  = if (bytes <=? 5242)%Z
    then (toFixed_2 (of_Z bytes / of_Z 1024) ++ " KB")%string
    else (toFixed_2 (of_Z bytes / (of_Z 1024 * of_Z 1024)) ++ " MB ("
          ++ toFixed_2 (of_Z bytes / of_Z 1024) ++ " KB)")%string.
Proof.
  intros Hbytes. unfold formatFileSizeDual.
  destruct (Z.eqb_spec bytes 0) as [-> | _]; [lia |].
  cbv zeta.
  set (mb := of_Z bytes / (of_Z 1024 * of_Z 1024)).
  assert (Hmb : (mb == inject_Z bytes / inject_Z 1048576)%Q).
  { unfold mb. cbn [div mul of_Z Exact_Number].
    rewrite Qred_correct. reflexivity. }
  assert (Hpos : Qle_bool 0 mb = true).
  { apply Qle_bool_iff. rewrite Hmb. apply Qle_shift_div_l; [reflexivity |].
    rewrite Qmult_0_l. change 0%Q with (inject_Z 0). rewrite <- Zle_Qle. lia. }
  rewrite (parseFloat_toFixed_2 mb mb eq_refl Hpos).
  set (n := Qfloor (mb * 100 + (1 # 2))).
  assert (Hn : n = ((200 * bytes + 1048576) / 2097152)%Z).
  { unfold n. rewrite Zdiv_Qdiv. apply Qfloor_comp. rewrite Hmb.
    rewrite inject_Z_plus, inject_Z_mult.
    change (inject_Z 200) with 200%Q.
    change (inject_Z 1048576) with 1048576%Q.
    change (inject_Z 2097152) with 2097152%Q.
    field. }
  assert (Hcmp : (of_Z n / of_Z 100 <? dec 1 100) = (n <=? 0)%Z).
  { unfold dec. cbn [ltb div of_Z Exact_Number].
    assert (Hiff : (Qred (inject_Z 1 / inject_Z 100)
                    <= Qred (inject_Z n / inject_Z 100))%Q <-> (1 <= n)%Z).
    { rewrite !Qred_correct. unfold Qdiv.
      rewrite Qmult_le_r by reflexivity. now rewrite <- Zle_Qle. }
    destruct (Z.leb_spec n 0) as [Hle | Hgt].
    - apply negb_true_iff, not_true_iff_false. intros Hq.
      apply Qle_bool_iff, Hiff in Hq. lia.
    - apply negb_false_iff, Qle_bool_iff, Hiff. lia. }
  rewrite Hcmp.
  destruct (Z.leb_spec bytes 5242) as [Hsmall | Hlarge].
  - rewrite Hn, Z.div_small by lia. reflexivity.
  - destruct (Z.leb_spec n 0) as [Hle | _]; [| reflexivity].
    assert (1 <= n)%Z; [| lia].
    rewrite Hn. apply Z.div_le_lower_bound; lia.
Qed.

End ExactFormatting.

Lemma formatFileSizeDual_threshold_witness :
  @formatFileSizeDual Exact_Number 5243 = "0.01 MB (5.12 KB)"%string.
Proof.
  etransitivity; [apply (formatFileSizeDual_threshold 5243); reflexivity |].
  vm_compute. reflexivity.
Defined.

(** The two arithmetics write the same texts on both sides of the threshold
    and further on: a division by 1024 is exact in binary64. *)
Example formatFileSizeDual_binary64 :
  map (@formatFileSizeDual Binary64_Number)
      [0; 1; 5; 6; 1023; 5242; 5243; 51200; 1000000; 2621440]%Z
  = map (@formatFileSizeDual Exact_Number)
      [0; 1; 5; 6; 1023; 5242; 5243; 51200; 1000000; 2621440]%Z /\
  map (@formatFileSizeDual Binary64_Number) [5242; 5243; 2621440]%Z
  = ["5.12 KB"; "0.01 MB (5.12 KB)"; "2.50 MB (2560.00 KB)"]%string.
Proof. split; vm_compute; reflexivity. Qed.

(** * The number of encodings *)

Lemma length_scales (a : arithmetic) : List.length (scales a) = 9%nat.
Proof. destruct a; reflexivity. Qed.

Section Requests.
Context (a : arithmetic).
#[local] Hint Extern 0 Number => exact (number_of a) : typeclass_instances.
Context {H : Host}.
Local Open Scope num_scope.

(** X20.  In either arithmetic a call requests at most 14 encodings: four
    at most on the full-size canvas, nine at most at quality 0.5 on scaled
    canvases, and one at most at quality 0.1. *)
Theorem compressImageToTarget_at_most_14 (file : Blob) (targetSizeKB : num) :
  let w := snd (compressImageToTarget file targetSizeKB start) in
  match decode file with
  | None => encodings w = []
  | Some image =>
      exists (qs scs : list num) (final : list Encoding),
        encodings w
        = map (full_encoding (full_canvas image)) qs
          ++ map (scaled_encoding image) scs ++ final /\
        (List.length qs <= 4)%nat /\
        (List.length scs <= 9)%nat /\
        (List.length final <= 1)%nat
  end /\
  (List.length (encodings w) <= 14)%nat.
Proof.
  intros w.
  pose proof (compressImageToTarget_requests file targetSizeKB) as Hparts.
  cbv zeta in Hparts. fold w in Hparts.
  destruct (first_pass_tree_computed a) as (_ & _ & Hdepth & _).
  destruct (second_pass_computed a) as (Hscales & _).
  cbv zeta in Hdepth.
  destruct (decode file) as [image |].
  2:{ rewrite Hparts. split; [reflexivity | cbn; lia]. }
  destruct Hparts as (qs & scs & rest & final & Hw & _ & Hqs & Hscs & Hfinal).
  rewrite tree_from_initial, Hdepth in Hqs.
  assert (Hlen : (List.length scs <= 9)%nat).
  { rewrite <- (length_scales a), <- Hscales, Hscs, length_app. lia. }
  assert (Hone : (List.length final <= 1)%nat)
    by (destruct Hfinal as [-> | ->]; cbn; lia).
  split.
  - exists qs, scs, final. repeat split; assumption.
  - rewrite Hw, !length_app, !length_map. lia.
Qed.

End Requests.

(** * Cropping from the page *)

Section CropFacts.
Context {N : Number} {H : Host} {P : Page} {F : Files}.

(** X21.  [performCrop] replaces the file only by the artifact of a crop
    that succeeded: there were a region, an image and a file, a context, and
    the encoder answered the one request, made in the type of the file at
    quality 1; then the preview is a URL made for the artifact, the old one
    is revoked, and the cropping mode is left.  In every other case the file
    and the preview stay as they were and no URL is made or revoked: a crop
    that fails sets the toast and stays in the cropping mode.  The state, the
    result and the history are never touched. *)
Theorem performCrop_outcome (app : AppModel) (br : Browser) :
  let after := performCrop app br in
  (state (fst after) = state app /\
   result (fst after) = result app /\
   history (fst after) = history app) /\
  ((exists crop image file b,
      completedCrop app = Some crop /\
      imgRef app = Some image /\
      originalFile app = Some file /\
      context2d = true /\
      toBlob (cropped_canvas image crop) (blob_type file) (of_Z 1) = Some b /\
      originalFile (fst after) = Some b /\
      previewUrl (fst after) = Some (objectURL (minted br)) /\
      isCropping (fst after) = false /\
      minted (snd after) = S (minted br) /\
      revoked (snd after)
      = match previewUrl app with
        | Some url =>
            if String.eqb url "" then revoked br else url :: revoked br
        | None => revoked br
        end)
   \/
   (originalFile (fst after) = originalFile app /\
    previewUrl (fst after) = previewUrl app /\
    snd after = br /\
    (isCropping (fst after) = false \/
     isCropping (fst after) = isCropping app /\
     toast (fst after)
     = Some (mkToast toast_error "Failed to crop image")))).
Proof.
  cbv zeta. unfold performCrop.
  destruct (completedCrop app) as [crop |] eqn:Hcrop;
    [| split; [repeat split | right; repeat split; left; reflexivity]].
  destruct (imgRef app) as [image |] eqn:Himage;
    [| split; [repeat split | right; repeat split; left; reflexivity]].
  destruct (originalFile app) as [file |] eqn:Hfile;
    [| split; [repeat split
              | right; repeat split;
                  [exact Hfile | left; reflexivity]]].
  rewrite getCroppedImg_run. cbv zeta.
  destruct context2d eqn:Hctx; cbn [fst];
    [| split; [repeat split
              | right; repeat split;
                  [exact Hfile | right; split; reflexivity]]].
  destruct (toBlob (cropped_canvas image crop) (blob_type file) (of_Z 1))
    as [b |] eqn:Hb;
    [| split; [repeat split
              | right; repeat split;
                  [exact Hfile | right; split; reflexivity]]].
  split; [repeat split |].
  left. exists crop, image, file, b.
  cbn [fst snd createObjectURL originalFile previewUrl isCropping setToast
       setIsCropping setPreviewUrl setOriginalFile].
  repeat split; try assumption;
    (destruct (previewUrl app) as [url |]; [| reflexivity]);
    destruct (String.eqb url ""); reflexivity.
Qed.

End CropFacts.

(** * The artifact and its dimensions *)

Lemma last_map_related {A B C : Type} (f : A -> B) (g : A -> C)
    (R : B -> C -> Prop) (l : list A) (b : B) (c : C) :
  R b c -> (forall a, R (f a) (g a)) ->
  R (last (map f l) b) (last (map g l) c).
Proof.
  intros Hd Hfg. induction l as [| a l IH]; [exact Hd |].
  destruct l as [| a' l]; [apply Hfg | exact IH].
Qed.

Section Artifact.
Context {N : Number} {H : Host}.
Local Open Scope num_scope.

(** X22.  What a call returns goes together: the blob is the answer to a
    request made on the canvas as the call leaves it, and the width and the
    height returned are the ones that canvas was given. *)
Theorem result_matches_canvas (file : Blob) (targetSizeKB : num) :
  match compressImageToTarget file targetSizeKB start with
  | (Returned r, w) =>
      canvas_width (canvas w) = reflect_unsigned_long 300 (width r) /\
      canvas_height (canvas w) = reflect_unsigned_long 150 (height r) /\
      exists e,
        In e (encodings w) /\ enc_canvas e = canvas w /\ answer e = blob r
  | (Thrown _, _) => True
  end.
Proof.
  destruct (decode file) as [image |] eqn:Hdecode.
  2:{ rewrite compressImageToTarget_run, Hdecode. exact I. }
  destruct context2d eqn:Hctx.
  2:{ rewrite compressImageToTarget_run, Hdecode, Hctx. exact I. }
  destruct (compressImageToTarget_outcome file targetSizeKB image Hdecode Hctx)
    as (qs & scs & rest & _ & _ & Hrun).
  destruct (compressImageToTarget file targetSizeKB start) as [[r | e] w];
    [| exact I].
  destruct Hrun
    as [(_ & -> & _ & q & b & Hq & Hb & _ & ->)
       | [(_ & scs' & sc & b & -> & -> & _ & Hb & _ & ->)
         | (_ & _ & _ & Hw)]].
  - repeat split.
    exists (full_encoding (full_canvas image) q).
    repeat split; [| exact Hb].
    cbn [encodings]. apply in_map. exact Hq.
  - repeat split.
    exists (scaled_encoding image sc).
    repeat split; [| exact Hb].
    cbn [encodings]. apply in_or_app. right. apply in_map.
    apply in_or_app. right. now left.
  - cbv zeta in Hw. destruct Hw as [-> ->]. cbn [canvas width height blob].
    split; [| split].
    + apply (last_map_related (scaled_canvas image) (scaled_width image)
               (fun c v => canvas_width c = reflect_unsigned_long 300 v));
        reflexivity.
    + apply (last_map_related (scaled_canvas image) (scaled_height image)
               (fun c v => canvas_height c = reflect_unsigned_long 150 v));
        reflexivity.
    + exists (full_encoding
                (last (map (scaled_canvas image) scs) (full_canvas image))
                (dec 1 10)).
      cbn [encodings]. split; [| split; reflexivity].
      apply in_or_app. right. apply in_or_app. right. now left.
Qed.

End Artifact.
